(** * The Optic SDK lifecycle: a shallow embedding and its properties

    The development follows the Python sources:

    - [optic/config.py]            the [OpticConfig] dataclass and [from_env];
    - [optic/_core.py]             [init], [shutdown], [is_initialized] and the
                                   module-level provider handles;
    - [observex/instruments.py]    the [INSTRUMENTORS] table and [auto_instrument];
    - [observex/system_metrics.py] [start_system_metrics] and its three callbacks.

    [optic/_core.py] imports [auto_instrument] and [start_system_metrics] from
    the rebranded copies [optic.instruments] and [optic.system_metrics]; the
    copies read here are the [observex] ones, logger names included.

    Everything the SDK delegates to the telemetry library, to [importlib], to
    [psutil] and to the operating system is an external call.  An external call
    is answered by an oracle that sees the whole history of the process, so
    every theorem holds whatever the collaborators do.  A Python string is
    kept as the bytes of its UTF-8 encoding. *)

From Stdlib Require Import Ascii String DecimalString QArith.
From stdpp Require Import base option list strings gmap.
Close Scope Q_scope.
Open Scope string_scope.
Open Scope list_scope.
Set Warnings "-register-all".

(** ** Python values *)

(** The values that reach the SDK through keyword arguments and
    configuration fields.  A dataclass does not check the annotations of its
    fields, so a field holds whatever value the caller passed.  Floats are
    carried as rationals; no arithmetic of the SDK depends on rounding. *)
Inductive PyVal : Type :=
| PNone
| PBool (b : bool)
| PInt (z : Z)
| PFloat (q : Q)
| PStr (s : string)
| PList (l : list PyVal).

(** [bool(v)]. *)
Definition truthy (v : PyVal) : bool :=
  match v with
  | PNone => false
  | PBool b => b
  | PInt z => negb (z =? 0)%Z
  | PFloat q => negb (Qnum q =? 0)%Z
  | PStr s => negb (String.eqb s "")
  | PList l => match l with [] => false | _ => true end
  end.

(** [v is None]. *)
Definition is_None (v : PyVal) : bool :=
  match v with PNone => true | _ => false end.

(** [a or b]. *)
Definition py_or (a b : PyVal) : PyVal := if truthy a then a else b.

(** ** Exceptions *)

(** Exception classes.  [BaseException] is the root; [SystemExit],
    [KeyboardInterrupt] and [GeneratorExit] derive from it directly, and so
    escape an [except Exception]; the other built-in classes derive from
    [Exception].  [UserDefined] is a class declared by a collaborator with
    the given base. *)
Inductive ExnClass : Type :=
| BaseException
| SystemExit
| KeyboardInterrupt
| GeneratorExit
| Exception
| ImportError
| ModuleNotFoundError
| AttributeError
| ValueError
| TypeError
| RuntimeError
| SyntaxError
| OSError
| UserDefined (name : string) (base : ExnClass).

#[global] Instance ExnClass_eq_dec : EqDecision ExnClass.
Proof. solve_decision. Defined.

(** The class and its bases, most derived first. *)
Fixpoint exn_mro (c : ExnClass) : list ExnClass :=
  c :: match c with
       | BaseException => []
       | SystemExit | KeyboardInterrupt | GeneratorExit | Exception => [BaseException]
       | ModuleNotFoundError => [ImportError; Exception; BaseException]
       | UserDefined _ b => exn_mro b
       | _ => [Exception; BaseException]
       end.

Record Exn : Type := mkExn { exn_class : ExnClass; exn_msg : string }.

(** [isinstance(e, c)]. *)
Definition isinstance (e : Exn) (c : ExnClass) : bool :=
  bool_decide (c ∈ exn_mro (exn_class e)).

(** ** The outside world *)

Definition Handle : Type := nat.

(** Parts of an f-string: literal text, an interpolated value, an
    interpolated exception. *)
Inductive FPart : Type :=
| FLit (s : string)
| FVal (v : PyVal)
| FExn (e : Exn).

Definition FStr : Type := list FPart.

(** The three signals, in the order [init] sets them up. *)
Inductive Signal : Type := Traces | Metrics | Logs.

(** The callbacks [start_system_metrics] hands to the meter. *)
Inductive Callback : Type := cpu_callback | memory_callback | disk_callback.

(** External calls, one constructor per call expression of the sources. *)
Inductive Op : Type :=
(* optic/_core.py *)
| Resource_create (attributes : list (string * PyVal))
| OTLPSpanExporter (endpoint : FStr) (headers : list (string * FStr))
| TracerProvider (resource : Handle)
| BatchSpanProcessor (exporter : Handle)
| add_span_processor (provider processor : Handle)
| set_tracer_provider (provider : Handle)
| OTLPMetricExporter (endpoint : FStr) (headers : list (string * FStr))
| PeriodicExportingMetricReader (exporter : Handle) (export_interval_millis : PyVal)
| MeterProvider (resource : Handle) (metric_readers : list Handle)
| set_meter_provider (provider : Handle)
| OTLPLogExporter (endpoint : FStr) (headers : list (string * FStr))
| LoggerProvider (resource : Handle)
| BatchLogRecordProcessor (exporter : Handle)
| add_log_record_processor (provider processor : Handle)
| LoggingHandler (level : Z) (logger_provider : Handle)
| addHandler (handler : Handle)
| provider_shutdown (signal : Signal) (provider : Handle)
(* observex/system_metrics.py *)
| import_psutil
| import_from (module name : string)
| get_meter (name version : string)
| create_observable_gauge (meter : Handle) (name : string)
    (callbacks : list Callback) (description unit_ : string)
| cpu_percent
| virtual_memory
| disk_usage (path : string)
(* observex/instruments.py *)
| import_module (name : string)
| getattr_ (module : Handle) (name : string)
| instantiate (cls : Handle)
| is_instrumented_by_opentelemetry (instrumentor : Handle)
| hasattr_ (instrumentor : Handle) (name : string)
| instrument (instrumentor : Handle) (kwargs : list (string * string))
| exception_str (e : Exn).

Inductive Outcome : Type := Returned | Raised (e : Exn).

(** What the process did, oldest first. *)
Inductive Event : Type :=
| EGetenv (key : string)
| ECall (op : Op) (out : Outcome)
| ELog (logger : string) (levelno : Z) (msg : FStr)
| EAtexit_register_shutdown.

(** The collaborators.  Each answer may depend on everything that happened
    before the call. *)
Record External : Type := mkExternal {
  (** does this call raise, and what *)
  ext_raise : list Event → Op → option Exn;
  (** the value of a call that returns a boolean *)
  ext_bool : list Event → Op → bool;
  (** the [percent] reading of a probe that returns *)
  ext_percent : list Event → Op → Q;
  (** [setattr(cfg, key, value)] for a [key] that is no dataclass field and
      that the instance inherits from [object] or from the dataclass
      machinery: [None] when [hasattr(cfg, key)] is false, [Some None] when
      the attribute is stored in the instance dictionary, [Some (Some e)]
      when [setattr] raises. *)
  ext_inherited_attr : string → PyVal → option (option Exn);
  (** [s.upper()] for a string [s] with characters outside ASCII: the
      Unicode case mapping of the interpreter *)
  ext_upper : string → string;
}.

(** ** Process state *)

(** The module globals of [optic/_core.py]. *)
Record Globals : Type := mkGlobals {
  _initialized : bool;
  _tracer_provider : option Handle;
  _meter_provider : option Handle;
  _logger_provider : option Handle;
}.

Record World : Type := mkWorld {
  environ : gmap string string;
  globals : Globals;
  events : list Event;
}.

(** A freshly started interpreter with the given environment. *)
Definition fresh (env : gmap string string) : World :=
  {| environ := env;
     globals := {| _initialized := false; _tracer_provider := None;
                   _meter_provider := None; _logger_provider := None |};
     events := [] |}.

Definition record_event (ev : Event) (w : World) : World :=
  {| environ := environ w; globals := globals w; events := events w ++ [ev] |}.

Definition with_globals (g : Globals) (w : World) : World :=
  {| environ := environ w; globals := g; events := events w |}.

(** ** State and exceptions *)

Inductive Result (A : Type) : Type :=
| Ok (a : A)
| Raise (e : Exn).
Arguments Ok {A} a.
Arguments Raise {A} e.

Definition M (A : Type) : Type := World → Result A * World.

#[global] Instance M_ret : MRet M := λ A a w, (Ok a, w).

#[global] Instance M_bind : MBind M := λ A B k m w,
  match m w with
  | (Ok a, w') => k a w'
  | (Raise e, w') => (Raise e, w')
  end.

(** [raise e]. *)
Definition raise {A : Type} (e : Exn) : M A := λ w, (Raise e, w).

(** [try: body  except <classes>: handler]. *)
Definition try_except {A : Type} (body : M A) (catches : Exn → bool)
    (handler : Exn → M A) : M A := λ w,
  match body w with
  | (Ok a, w') => (Ok a, w')
  | (Raise e, w') => if catches e then handler e w' else (Raise e, w')
  end.

(** [for x in xs: acc = body(acc, x)]. *)
Fixpoint for_each {A B : Type} (body : B → A → M B) (acc : B) (xs : list A) : M B :=
  match xs with
  | [] => mret acc
  | x :: xs' => acc' ← body acc x; for_each body acc' xs'
  end.

Definition get_globals : M Globals := λ w, (Ok (globals w), w).

Definition set_globals (g : Globals) : M unit := λ w, (Ok tt, with_globals g w).

Definition emit (ev : Event) : M unit := λ w, (Ok tt, record_event ev w).

(** [logging.getLogger(name).<level>(msg)]. *)
Definition log (logger : string) (levelno : Z) (msg : FStr) : M unit :=
  emit (ELog logger levelno msg).

Definition logging_DEBUG : Z := 10.
Definition logging_INFO : Z := 20.
Definition logging_WARNING : Z := 30.
Definition logging_ERROR : Z := 40.

Section WithExternal.

Context (X : External).

(** An external call that builds or returns an object.  The handle of the
    object is the position of the call in the history. *)
Definition call (op : Op) : M Handle := λ w,
  match ext_raise X (events w) op with
  | Some e => (Raise e, record_event (ECall op (Raised e)) w)
  | None => (Ok (length (events w)), record_event (ECall op Returned) w)
  end.

(** An external call whose result is tested as a boolean. *)
Definition call_bool (op : Op) : M bool := λ w,
  match ext_raise X (events w) op with
  | Some e => (Raise e, record_event (ECall op (Raised e)) w)
  | None => (Ok (ext_bool X (events w) op), record_event (ECall op Returned) w)
  end.

(** A probe that returns a [percent] reading. *)
Definition call_percent (op : Op) : M Q := λ w,
  match ext_raise X (events w) op with
  | Some e => (Raise e, record_event (ECall op (Raised e)) w)
  | None => (Ok (ext_percent X (events w) op), record_event (ECall op Returned) w)
  end.

End WithExternal.

(** [os.getenv(key, default)]. *)
Definition getenv (key dflt : string) : M string := λ w,
  (Ok (default dflt (environ w !! key)), record_event (EGetenv key) w).

(** ** optic/config.py *)

(** A Python [dict] with string keys: an association list in insertion
    order, keys distinct. *)
Definition Dict : Type := list (string * PyVal).

(** [d.get(key)]. *)
Fixpoint dict_get (key : string) (d : Dict) : option PyVal :=
  match d with
  | [] => None
  | (k, v) :: d' => if String.eqb k key then Some v else dict_get key d'
  end.

(** [d[key] = value]: an existing key keeps its position. *)
Fixpoint dict_set (key : string) (value : PyVal) (d : Dict) : Dict :=
  match d with
  | [] => [(key, value)]
  | (k, v) :: d' =>
      if String.eqb k key then (k, value) :: d' else (k, v) :: dict_set key value d'
  end.

(** The dataclass [OpticConfig]. *)
Record OpticConfig : Type := mkOpticConfig {
  api_key : PyVal;
  service_name : PyVal;
  endpoint : PyVal;
  environment : PyVal;
  service_version : PyVal;
  auto_instrument_ : PyVal;
  enable_traces : PyVal;
  enable_metrics : PyVal;
  enable_logs : PyVal;
  enable_system_metrics : PyVal;
  system_metrics_interval_sec : PyVal;
  export_interval_ms : PyVal;
  log_level : PyVal;
  excluded_urls : PyVal;
}.

(** The field names of the dataclass. *)
Inductive Field : Type :=
| F_api_key | F_service_name | F_endpoint | F_environment | F_service_version
| F_auto_instrument | F_enable_traces | F_enable_metrics | F_enable_logs
| F_enable_system_metrics | F_system_metrics_interval_sec
| F_export_interval_ms | F_log_level | F_excluded_urls.

#[global] Instance Field_eq_dec : EqDecision Field.
Proof. solve_decision. Defined.

Definition all_fields : list Field :=
  [F_api_key; F_service_name; F_endpoint; F_environment; F_service_version;
   F_auto_instrument; F_enable_traces; F_enable_metrics; F_enable_logs;
   F_enable_system_metrics; F_system_metrics_interval_sec;
   F_export_interval_ms; F_log_level; F_excluded_urls].

Definition field_name (f : Field) : string :=
  match f with
  | F_api_key => "api_key"
  | F_service_name => "service_name"
  | F_endpoint => "endpoint"
  | F_environment => "environment"
  | F_service_version => "service_version"
  | F_auto_instrument => "auto_instrument"
  | F_enable_traces => "enable_traces"
  | F_enable_metrics => "enable_metrics"
  | F_enable_logs => "enable_logs"
  | F_enable_system_metrics => "enable_system_metrics"
  | F_system_metrics_interval_sec => "system_metrics_interval_sec"
  | F_export_interval_ms => "export_interval_ms"
  | F_log_level => "log_level"
  | F_excluded_urls => "excluded_urls"
  end.

(** The field a keyword names, if any. *)
Definition field_of_name (key : string) : option Field :=
  List.find (λ f, String.eqb (field_name f) key) all_fields.

(** [getattr(cfg, f)]. *)
Definition get_field (f : Field) (cfg : OpticConfig) : PyVal :=
  match f with
  | F_api_key => api_key cfg
  | F_service_name => service_name cfg
  | F_endpoint => endpoint cfg
  | F_environment => environment cfg
  | F_service_version => service_version cfg
  | F_auto_instrument => auto_instrument_ cfg
  | F_enable_traces => enable_traces cfg
  | F_enable_metrics => enable_metrics cfg
  | F_enable_logs => enable_logs cfg
  | F_enable_system_metrics => enable_system_metrics cfg
  | F_system_metrics_interval_sec => system_metrics_interval_sec cfg
  | F_export_interval_ms => export_interval_ms cfg
  | F_log_level => log_level cfg
  | F_excluded_urls => excluded_urls cfg
  end.

(** [setattr(cfg, f, v)] on a field. *)
Definition set_field (f : Field) (v : PyVal) (c : OpticConfig) : OpticConfig :=
  let pick g := if decide (f = g) then v else get_field g c in
  {| api_key := pick F_api_key;
     service_name := pick F_service_name;
     endpoint := pick F_endpoint;
     environment := pick F_environment;
     service_version := pick F_service_version;
     auto_instrument_ := pick F_auto_instrument;
     enable_traces := pick F_enable_traces;
     enable_metrics := pick F_enable_metrics;
     enable_logs := pick F_enable_logs;
     enable_system_metrics := pick F_enable_system_metrics;
     system_metrics_interval_sec := pick F_system_metrics_interval_sec;
     export_interval_ms := pick F_export_interval_ms;
     log_level := pick F_log_level;
     excluded_urls := pick F_excluded_urls |}.

(** The defaults written in the class body. *)
Definition default_config : OpticConfig :=
  {| api_key := PStr "";
     service_name := PStr "";
     endpoint := PStr "http://localhost:8080";
     environment := PStr "local";
     service_version := PStr "";
     auto_instrument_ := PBool true;
     enable_traces := PBool true;
     enable_metrics := PBool true;
     enable_logs := PBool true;
     enable_system_metrics := PBool true;
     system_metrics_interval_sec := PFloat (15 # 1);
     export_interval_ms := PInt 10000;
     log_level := PStr "INFO";
     excluded_urls := PList [] |}.

Section Config.

Context (X : External).

(** The body of the loop of [from_env]:
    [if hasattr(cfg, key): setattr(cfg, key, value)].  A key that names the
    class method [from_env] or an inherited attribute is stored in the
    instance dictionary, which no code reads; the fields stay as they are. *)
Definition setattr_if_hasattr (cfg : OpticConfig) (kv : string * PyVal) : M OpticConfig :=
  let '(key, value) := kv in
  match field_of_name key with
  | Some f => mret (set_field f value cfg)
  | None =>
      if String.eqb key "from_env" then mret cfg
      else match ext_inherited_attr X key value with
           | None => mret cfg
           | Some None => mret cfg
           | Some (Some e) => raise e
           end
  end.

(** The class method [OpticConfig.from_env].  The default of an outer
    [os.getenv] is an argument, so the inner [os.getenv] is evaluated
    first. *)
Definition from_env (overrides : Dict) : M OpticConfig :=
  otel_api_key ← getenv "OTEL_API_KEY" "";
  v_api_key ← getenv "OPTIC_API_KEY" otel_api_key;
  otel_service_name ← getenv "OTEL_SERVICE_NAME" "";
  v_service_name ← getenv "OPTIC_SERVICE_NAME" otel_service_name;
  otel_endpoint ← getenv "OTEL_EXPORTER_OTLP_ENDPOINT" "http://localhost:8080";
  v_endpoint ← getenv "OPTIC_ENDPOINT" otel_endpoint;
  v_environment ← getenv "OPTIC_ENVIRONMENT" "local";
  v_service_version ← getenv "OPTIC_SERVICE_VERSION" "";
  let cfg :=
    {| api_key := PStr v_api_key;
       service_name := PStr v_service_name;
       endpoint := PStr v_endpoint;
       environment := PStr v_environment;
       service_version := PStr v_service_version;
       auto_instrument_ := auto_instrument_ default_config;
       enable_traces := enable_traces default_config;
       enable_metrics := enable_metrics default_config;
       enable_logs := enable_logs default_config;
       enable_system_metrics := enable_system_metrics default_config;
       system_metrics_interval_sec := system_metrics_interval_sec default_config;
       export_interval_ms := export_interval_ms default_config;
       log_level := log_level default_config;
       excluded_urls := excluded_urls default_config |} in
  for_each setattr_if_hasattr cfg overrides.

End Config.

(** The arguments of one [init] call: the three named parameters and
    [**kwargs]. *)
Record InitArgs : Type := mkInitArgs {
  arg_api_key : PyVal;
  arg_service_name : PyVal;
  arg_endpoint : PyVal;
  arg_kwargs : Dict;
}.

(** Lines 56-62 of [init]: the overrides handed to [from_env]. *)
Definition build_overrides (a : InitArgs) : Dict :=
  let overrides := List.filter (λ kv, negb (is_None kv.2)) (arg_kwargs a) in
  let overrides :=
    if truthy (arg_api_key a) then dict_set "api_key" (arg_api_key a) overrides
    else overrides in
  let overrides :=
    if truthy (arg_service_name a)
    then dict_set "service_name" (arg_service_name a) overrides
    else overrides in
  let overrides :=
    if truthy (arg_endpoint a) then dict_set "endpoint" (arg_endpoint a) overrides
    else overrides in
  overrides.

(** ** Strings *)

(** The upper-case form of an ASCII letter; any other character is as it
    is. *)
Definition ascii_upper (c : ascii) : ascii :=
  let n := nat_of_ascii c in
  if (97 <=? n)%nat && (n <=? 122)%nat then ascii_of_nat (n - 32) else c.

Fixpoint upper_ascii (s : string) : string :=
  match s with
  | EmptyString => EmptyString
  | String c s' => String (ascii_upper c) (upper_ascii s')
  end.

(** [s.isascii()]: every byte of the encoding is below 128. *)
Fixpoint isascii (s : string) : bool :=
  match s with
  | EmptyString => true
  | String c s' => (nat_of_ascii c <? 128)%nat && isascii s'
  end.

(** [s.upper()].  On ASCII text it replaces the letters a-z by A-Z and
    nothing else.  On other text it follows the Unicode case mapping, which
    can produce ASCII letters (the dotless i becomes I); that mapping
    belongs to the interpreter and is not spelled out here. *)
Definition upper (X : External) (s : string) : string :=
  if isascii s then upper_ascii s else ext_upper X s.

(** [s.rsplit(sep, 1)] for a one-character separator, when it yields two
    parts: the text before the last separator and the text after it. *)
Fixpoint rsplit1 (sep : ascii) (s : string) : option (string * string) :=
  match s with
  | EmptyString => None
  | String c s' =>
      match rsplit1 sep s' with
      | Some (before, after) => Some (String c before, after)
      | None => if Ascii.eqb c sep then Some (EmptyString, s') else None
      end
  end.

(** [type(v).__name__]. *)
Definition type_name (v : PyVal) : string :=
  match v with
  | PNone => "NoneType"
  | PBool _ => "bool"
  | PInt _ => "int"
  | PFloat _ => "float"
  | PStr _ => "str"
  | PList _ => "list"
  end.

Definition str_of_nat (n : nat) : string :=
  DecimalString.NilZero.string_of_uint (Nat.to_uint n).

(** The items of a list handed to [str.join], up to the first that is no
    string. *)
Fixpoint join_items (i : nat) (l : list PyVal) : Result (list string) :=
  match l with
  | [] => Ok []
  | PStr s :: l' =>
      match join_items (S i) l' with
      | Ok ss => Ok (s :: ss)
      | Raise e => Raise e
      end
  | v :: _ =>
      Raise (mkExn TypeError
               ("sequence item " +:+ str_of_nat i +:+ ": expected str instance, "
                +:+ type_name v +:+ " found"))
  end.

(** A byte that continues a character of several bytes in UTF-8. *)
Definition is_continuation (c : ascii) : bool :=
  (128 <=? nat_of_ascii c)%nat && (nat_of_ascii c <? 192)%nat.

(** The characters of a string, each with all the bytes of its
    encoding. *)
Fixpoint characters (s : string) : list string :=
  match s with
  | EmptyString => []
  | String c s' =>
      match characters s' with
      | next :: rest =>
          if match s' with String d _ => is_continuation d | EmptyString => false end
          then String c next :: rest
          else String c EmptyString :: next :: rest
      | [] => [String c EmptyString]
      end
  end.

(** [sep.join(v)]; iterating over a string yields its characters. *)
Definition str_join (sep : string) (v : PyVal) : Result string :=
  match v with
  | PList l =>
      match join_items 0 l with
      | Ok ss => Ok (String.concat sep ss)
      | Raise e => Raise e
      end
  | PStr s => Ok (String.concat sep (characters s))
  | _ => Raise (mkExn TypeError "can only join an iterable")
  end.

(** ** observex/instruments.py *)

(** Map of library to instrumentor class path, in the order of the source. *)
Definition INSTRUMENTORS : list (string * string) :=
  [ ("flask", "opentelemetry.instrumentation.flask:FlaskInstrumentor");
    ("django", "opentelemetry.instrumentation.django:DjangoInstrumentor");
    ("fastapi", "opentelemetry.instrumentation.fastapi:FastAPIInstrumentor");
    ("requests", "opentelemetry.instrumentation.requests:RequestsInstrumentor");
    ("urllib3", "opentelemetry.instrumentation.urllib3:URLLib3Instrumentor");
    ("sqlalchemy", "opentelemetry.instrumentation.sqlalchemy:SQLAlchemyInstrumentor");
    ("pymysql", "opentelemetry.instrumentation.pymysql:PyMySQLInstrumentor");
    ("psycopg2", "opentelemetry.instrumentation.psycopg2:Psycopg2Instrumentor");
    ("redis", "opentelemetry.instrumentation.redis:RedisInstrumentor");
    ("celery", "opentelemetry.instrumentation.celery:CeleryInstrumentor");
    ("httpx", "opentelemetry.instrumentation.httpx:HTTPXClientInstrumentor");
    ("aiohttp", "opentelemetry.instrumentation.aiohttp_client:AioHttpClientInstrumentor");
    ("kafka", "opentelemetry.instrumentation.kafka:KafkaInstrumentor") ].

Definition instruments_logger : string := "observex.instruments".

(** The message of the warning logged for a failed adapter. *)
Definition failed_to_instrument (lib_name : string) (e : Exn) : FStr :=
  [FLit "Failed to instrument "; FLit lib_name; FLit ": "; FExn e].

Section Instruments.

Context (X : External).

(** Lines 39-42: is the target library installed. *)
Definition probe_library (lib_name : string) : M bool :=
  try_except (call X (import_module lib_name);; mret true)
    (λ e, isinstance e ImportError)
    (λ _, mret false).

(** Lines 46-51: is the instrumentor installed; [None] stands for the
    [continue] of the handler. *)
Definition probe_instrumentor (lib_name module_path class_name : string)
    : M (option Handle) :=
  try_except
    (module ← call X (import_module module_path);
     instrumentor_cls ← call X (getattr_ module class_name);
     mret (Some instrumentor_cls))
    (λ e, isinstance e ImportError || isinstance e AttributeError)
    (λ _, log instruments_logger logging_DEBUG
            [FLit "Instrumentor not available for "; FLit lib_name; FLit ", skipping"];;
          mret None).

(** Lines 55-61: the body of the last [try]. *)
Definition apply_instrumentor (excluded_urls : PyVal) (lib_name : string)
    (instrumentor_cls : Handle) (instrumented : list string) : M (list string) :=
  instrumentor ← call X (instantiate instrumentor_cls);
  already ← call_bool X (is_instrumented_by_opentelemetry instrumentor);
  if (already : bool) then mret instrumented
  else
    has ← (if truthy excluded_urls
           then call_bool X (hasattr_ instrumentor "instrument")
           else mret false : M bool);
    kwargs ← (if (has : bool)
              then match str_join "," excluded_urls with
                   | Ok s => mret [("excluded_urls", s)]
                   | Raise e => raise e
                   end
              else mret [] : M (list (string * string)));
    call X (instrument instrumentor kwargs);;
    mret (instrumented ++ [lib_name]).

(** Lines 54-63: the last [try] with its handler.  The f-string of the
    handler formats the exception, which runs [e.__str__()]: code of the
    collaborator that raised it. *)
Definition instrument_it (excluded_urls : PyVal) (lib_name : string)
    (instrumentor_cls : Handle) (instrumented : list string) : M (list string) :=
  try_except (apply_instrumentor excluded_urls lib_name instrumentor_cls instrumented)
    (λ e, isinstance e Exception)
    (λ e, call X (exception_str e);;
          log instruments_logger logging_WARNING (failed_to_instrument lib_name e);;
          mret instrumented).

(** The body of the loop of [auto_instrument] for one table entry; the
    list [instrumented] is threaded through. *)
Definition instrument_entry (excluded_urls : PyVal) (instrumented : list string)
    (entry : string * string) : M (list string) :=
  let '(lib_name, instrumentor_path) := entry in
  installed ← probe_library lib_name;
  if negb (installed : bool) then mret instrumented
  else
    match rsplit1 ":" instrumentor_path with
    | None =>
        raise (mkExn ValueError "not enough values to unpack (expected 2, got 1)")
    | Some (module_path, class_name) =>
        found ← probe_instrumentor lib_name module_path class_name;
        match found : option Handle with
        | None => mret instrumented
        | Some instrumentor_cls =>
            instrument_it excluded_urls lib_name instrumentor_cls instrumented
        end
    end.

(** [auto_instrument(excluded_urls)] over a table. *)
Definition auto_instrument_over (table : list (string * string))
    (excluded_urls : PyVal) : M unit :=
  let excluded_urls := py_or excluded_urls (PList []) in
  instrumented ← for_each (instrument_entry excluded_urls) [] table;
  match instrumented : list string with
  | [] => mret tt
  | _ => log instruments_logger logging_INFO
           [FLit "Auto-instrumented: "; FLit (String.concat ", " instrumented)]
  end.

Definition auto_instrument : PyVal → M unit := auto_instrument_over INSTRUMENTORS.

End Instruments.

(** ** observex/system_metrics.py *)

Record Observation : Type := mkObservation { obs_value : Q }.

Definition system_metrics_logger : string := "observex.system_metrics".

Section SystemMetrics.

Context (X : External).

(** The closures [_cpu_callback], [_memory_callback] and [_disk_callback]
    of [start_system_metrics]; the argument they ignore is left out. *)
Definition _cpu_callback : M (list Observation) :=
  try_except
    (call X (import_from "opentelemetry.metrics" "Observation");;
     percent ← call_percent X cpu_percent;
     let cpu := (percent / (100 # 1))%Q in
     mret [mkObservation cpu])
    (λ e, isinstance e Exception)
    (λ _, mret []).

Definition _memory_callback : M (list Observation) :=
  try_except
    (call X (import_from "opentelemetry.metrics" "Observation");;
     percent ← call_percent X virtual_memory;
     let mem := (percent / (100 # 1))%Q in
     mret [mkObservation mem])
    (λ e, isinstance e Exception)
    (λ _, mret []).

Definition _disk_callback : M (list Observation) :=
  try_except
    (call X (import_from "opentelemetry.metrics" "Observation");;
     percent ← call_percent X (disk_usage "/");
     let disk := (percent / (100 # 1))%Q in
     mret [mkObservation disk])
    (λ e, isinstance e Exception)
    (λ _, mret []).

(** What the meter runs when it invokes a registered callback. *)
Definition run_callback (cb : Callback) : M (list Observation) :=
  match cb with
  | cpu_callback => _cpu_callback
  | memory_callback => _memory_callback
  | disk_callback => _disk_callback
  end.

(** The operating-system probe behind a callback. *)
Definition probe_of (cb : Callback) : Op :=
  match cb with
  | cpu_callback => cpu_percent
  | memory_callback => virtual_memory
  | disk_callback => disk_usage "/"
  end.

Definition start_system_metrics (interval_sec : PyVal) : M unit :=
  have_psutil ←
    try_except (call X import_psutil;; mret true)
      (λ e, isinstance e ImportError)
      (λ _, log system_metrics_logger logging_DEBUG
              [FLit "psutil not installed, system metrics disabled"];;
            mret false);
  if negb (have_psutil : bool) then mret tt
  else
    call X (import_from "opentelemetry" "metrics");;
    meter ← call X (get_meter "observex.system" "0.1.0");
    cpu_gauge ← call X (create_observable_gauge meter "system.cpu.utilization" []
                          "CPU utilization (0.0 to 1.0)" "1");
    memory_gauge ← call X (create_observable_gauge meter "system.memory.utilization" []
                             "Memory utilization (0.0 to 1.0)" "1");
    disk_gauge ← call X (create_observable_gauge meter "system.disk.utilization" []
                           "Disk utilization (0.0 to 1.0)" "1");
    call X (create_observable_gauge meter "system.cpu.utilization" [cpu_callback]
              "CPU utilization (0.0 to 1.0)" "1");;
    call X (create_observable_gauge meter "system.memory.utilization" [memory_callback]
              "Memory utilization (0.0 to 1.0)" "1");;
    call X (create_observable_gauge meter "system.disk.utilization" [disk_callback]
              "Disk utilization (0.0 to 1.0)" "1");;
    log system_metrics_logger logging_INFO [FLit "System metrics collection started"].

End SystemMetrics.

(** ** optic/_core.py *)

(** [SERVICE_NAME] of [opentelemetry.sdk.resources]. *)
Definition SERVICE_NAME : string := "service.name".

(** The dictionary [log_levels] of [init]. *)
Definition log_levels : list (string * Z) :=
  [("DEBUG", logging_DEBUG); ("INFO", logging_INFO);
   ("WARNING", logging_WARNING); ("ERROR", logging_ERROR)].

(** [log_levels.get(name, default)]. *)
Fixpoint levels_get (name : string) (dflt : Z) (table : list (string * Z)) : Z :=
  match table with
  | [] => dflt
  | (k, v) :: table' => if String.eqb k name then v else levels_get name dflt table'
  end.

(** [log_levels.get(log_level.upper(), logging.INFO)] for a string. *)
Definition handler_level (X : External) (log_level : string) : Z :=
  levels_get (upper X log_level) logging_INFO log_levels.

Definition api_key_required : Exn :=
  mkExn ValueError
    "Optic API key is required. Pass api_key= or set OPTIC_API_KEY env var.".

Definition service_name_required : Exn :=
  mkExn ValueError
    "Service name is required. Pass service_name= or set OPTIC_SERVICE_NAME env var.".

(** The dictionary handed to [Resource.create]. *)
Definition resource_attributes (cfg : OpticConfig) : list (string * PyVal) :=
  [(SERVICE_NAME, service_name cfg);
   ("deployment.environment", environment cfg);
   ("service.version", py_or (service_version cfg) (PStr "unknown"));
   ("telemetry.sdk.name", PStr "optic-sdk");
   ("telemetry.sdk.version", PStr "0.1.0")].

(** The dictionary [headers]. *)
Definition auth_headers (cfg : OpticConfig) : list (string * FStr) :=
  [("Authorization", [FLit "Bearer "; FVal (api_key cfg)])].

(** The message logged at the end of [init]. *)
Definition initialized_message (cfg : OpticConfig) : FStr :=
  [FLit "Optic SDK initialized: service="; FVal (service_name cfg);
   FLit ", endpoint="; FVal (endpoint cfg);
   FLit ", traces="; FVal (enable_traces cfg);
   FLit ", metrics="; FVal (enable_metrics cfg);
   FLit ", logs="; FVal (enable_logs cfg)].

Definition set_initialized (b : bool) : M unit :=
  g ← get_globals;
  set_globals {| _initialized := b;
                 _tracer_provider := _tracer_provider g;
                 _meter_provider := _meter_provider g;
                 _logger_provider := _logger_provider g |}.

Definition set_tracer_provider_global (h : Handle) : M unit :=
  g ← get_globals;
  set_globals {| _initialized := _initialized g;
                 _tracer_provider := Some h;
                 _meter_provider := _meter_provider g;
                 _logger_provider := _logger_provider g |}.

Definition set_meter_provider_global (h : Handle) : M unit :=
  g ← get_globals;
  set_globals {| _initialized := _initialized g;
                 _tracer_provider := _tracer_provider g;
                 _meter_provider := Some h;
                 _logger_provider := _logger_provider g |}.

Definition set_logger_provider_global (h : Handle) : M unit :=
  g ← get_globals;
  set_globals {| _initialized := _initialized g;
                 _tracer_provider := _tracer_provider g;
                 _meter_provider := _meter_provider g;
                 _logger_provider := Some h |}.

Section Core.

Context (X : External).

(** [is_initialized()]. *)
Definition is_initialized : M bool :=
  g ← get_globals; mret (_initialized g).

(** Lines 86-94 of [init]. *)
Definition init_traces (cfg : OpticConfig) (resource : Handle)
    (headers : list (string * FStr)) : M unit :=
  if truthy (enable_traces cfg) then
    trace_exporter ← call X (OTLPSpanExporter
                               [FVal (endpoint cfg); FLit "/otlp/v1/traces"] headers);
    provider ← call X (TracerProvider resource);
    set_tracer_provider_global provider;;
    processor ← call X (BatchSpanProcessor trace_exporter);
    call X (add_span_processor provider processor);;
    call X (set_tracer_provider provider);;
    mret tt
  else mret tt.

(** Lines 96-106 of [init]. *)
Definition init_metrics (cfg : OpticConfig) (resource : Handle)
    (headers : list (string * FStr)) : M unit :=
  if truthy (enable_metrics cfg) then
    metric_exporter ← call X (OTLPMetricExporter
                                [FVal (endpoint cfg); FLit "/otlp/v1/metrics"] headers);
    reader ← call X (PeriodicExportingMetricReader metric_exporter
                       (export_interval_ms cfg));
    provider ← call X (MeterProvider resource [reader]);
    set_meter_provider_global provider;;
    call X (set_meter_provider provider);;
    mret tt
  else mret tt.

(** Lines 108-122 of [init]. *)
Definition init_logs (cfg : OpticConfig) (resource : Handle)
    (headers : list (string * FStr)) : M unit :=
  if truthy (enable_logs cfg) then
    log_exporter ← call X (OTLPLogExporter
                             [FVal (endpoint cfg); FLit "/otlp/v1/logs"] headers);
    provider ← call X (LoggerProvider resource);
    set_logger_provider_global provider;;
    processor ← call X (BatchLogRecordProcessor log_exporter);
    call X (add_log_record_processor provider processor);;
    match log_level cfg with
    | PStr s =>
        handler ← call X (LoggingHandler (handler_level X s) provider);
        call X (addHandler handler);;
        mret tt
    | v =>
        raise (mkExn AttributeError
                 ("'" +:+ type_name v +:+ "' object has no attribute 'upper'"))
    end
  else mret tt.

(** Lines 124-126 of [init]. *)
Definition init_system_metrics (cfg : OpticConfig) : M unit :=
  if truthy (enable_system_metrics cfg) && truthy (enable_metrics cfg)
  then start_system_metrics X (system_metrics_interval_sec cfg)
  else mret tt.

(** Lines 128-130 of [init]. *)
Definition init_auto_instrumentation (cfg : OpticConfig) : M unit :=
  if truthy (auto_instrument_ cfg)
  then auto_instrument X (excluded_urls cfg)
  else mret tt.

(** [init(api_key, service_name, endpoint, **kwargs)]. *)
Definition init (a : InitArgs) : M unit :=
  g ← get_globals;
  if _initialized g then mret tt
  else
    cfg ← from_env X (build_overrides a);
    if negb (truthy (api_key cfg)) then raise api_key_required
    else if negb (truthy (service_name cfg)) then raise service_name_required
    else
      resource ← call X (Resource_create (resource_attributes cfg));
      let headers := auth_headers cfg in
      init_traces cfg resource headers;;
      init_metrics cfg resource headers;;
      init_logs cfg resource headers;;
      init_system_metrics cfg;;
      init_auto_instrumentation cfg;;
      set_initialized true;;
      emit EAtexit_register_shutdown;;
      log "optic" logging_INFO (initialized_message cfg).

(** [if provider: provider.shutdown()]. *)
Definition shutdown_provider (signal : Signal) (provider : option Handle) : M unit :=
  match provider with
  | Some p => call X (provider_shutdown signal p);; mret tt
  | None => mret tt
  end.

(** [shutdown()]. *)
Definition shutdown : M unit :=
  g ← get_globals;
  if negb (_initialized g) then mret tt
  else
    shutdown_provider Traces (_tracer_provider g);;
    shutdown_provider Metrics (_meter_provider g);;
    shutdown_provider Logs (_logger_provider g);;
    set_initialized false.

End Core.

(** * Vocabulary of the statements *)

(** A computation [respects] a relation when the world it ends in is
    related to the world it starts from, however it ends. *)
Definition respects {A : Type} (R : relation World) (m : M A) : Prop :=
  ∀ w r w', m w = (r, w') → R w w'.

(** Only the history grows: the environment and the module globals are
    as before. *)
Definition only_events (w w' : World) : Prop :=
  environ w' = environ w ∧ globals w' = globals w ∧ events w `prefix_of` events w'.

(** The names Python binds to the named parameters of [init]; they never
    reach [**kwargs]. *)
Definition named_parameters : list string := ["api_key"; "service_name"; "endpoint"].

(** What Python guarantees about [**kwargs]: the keys are distinct and
    none is the name of a named parameter. *)
Definition kwargs_wf (kwargs : Dict) : Prop :=
  NoDup kwargs.*1 ∧ Forall (λ k, k ∉ kwargs.*1) named_parameters.

#[global] Instance kwargs_wf_dec kwargs : Decision (kwargs_wf kwargs).
Proof. unfold kwargs_wf. apply _. Defined.

(** The environment reads of [from_env], in the order they happen. *)
Definition from_env_reads : list Event :=
  [EGetenv "OTEL_API_KEY"; EGetenv "OPTIC_API_KEY";
   EGetenv "OTEL_SERVICE_NAME"; EGetenv "OPTIC_SERVICE_NAME";
   EGetenv "OTEL_EXPORTER_OTLP_ENDPOINT"; EGetenv "OPTIC_ENDPOINT";
   EGetenv "OPTIC_ENVIRONMENT"; EGetenv "OPTIC_SERVICE_VERSION"].

(** The SDK-specific environment variable of a field. *)
Definition sdk_variable (f : Field) : option string :=
  match f with
  | F_api_key => Some "OPTIC_API_KEY"
  | F_service_name => Some "OPTIC_SERVICE_NAME"
  | F_endpoint => Some "OPTIC_ENDPOINT"
  | F_environment => Some "OPTIC_ENVIRONMENT"
  | F_service_version => Some "OPTIC_SERVICE_VERSION"
  | _ => None
  end.

(** The generic fallback variable of a field. *)
Definition fallback_variable (f : Field) : option string :=
  match f with
  | F_api_key => Some "OTEL_API_KEY"
  | F_service_name => Some "OTEL_SERVICE_NAME"
  | F_endpoint => Some "OTEL_EXPORTER_OTLP_ENDPOINT"
  | _ => None
  end.

(** The value a field takes when no override is given: the SDK-specific
    variable if set, else the fallback variable if set, else the default. *)
Definition env_or_default (env : gmap string string) (f : Field) : PyVal :=
  match sdk_variable f ≫= (env !!.) with
  | Some s => PStr s
  | None =>
      match fallback_variable f ≫= (env !!.) with
      | Some s => PStr s
      | None => get_field f default_config
      end
  end.

(** The override the call site gives for a field: a named parameter
    counts when it is non-empty, a keyword option when it is not [None]. *)
Definition explicit_override (a : InitArgs) (f : Field) : option PyVal :=
  match f with
  | F_api_key => if truthy (arg_api_key a) then Some (arg_api_key a) else None
  | F_service_name =>
      if truthy (arg_service_name a) then Some (arg_service_name a) else None
  | F_endpoint => if truthy (arg_endpoint a) then Some (arg_endpoint a) else None
  | _ =>
      match dict_get (field_name f) (arg_kwargs a) with
      | Some v => if is_None v then None else Some v
      | None => None
      end
  end.

(** The priority order of the specification. *)
Definition by_priority (env : gmap string string) (a : InitArgs) (f : Field) : PyVal :=
  match explicit_override a f with
  | Some v => v
  | None => env_or_default env f
  end.

(** The configuration [from_env] builds before it applies the overrides. *)
Definition env_config (env : gmap string string) : OpticConfig :=
  {| api_key := PStr (default (default "" (env !! "OTEL_API_KEY")) (env !! "OPTIC_API_KEY"));
     service_name :=
       PStr (default (default "" (env !! "OTEL_SERVICE_NAME")) (env !! "OPTIC_SERVICE_NAME"));
     endpoint :=
       PStr (default (default "http://localhost:8080"
                        (env !! "OTEL_EXPORTER_OTLP_ENDPOINT"))
               (env !! "OPTIC_ENDPOINT"));
     environment := PStr (default "local" (env !! "OPTIC_ENVIRONMENT"));
     service_version := PStr (default "" (env !! "OPTIC_SERVICE_VERSION"));
     auto_instrument_ := auto_instrument_ default_config;
     enable_traces := enable_traces default_config;
     enable_metrics := enable_metrics default_config;
     enable_logs := enable_logs default_config;
     enable_system_metrics := enable_system_metrics default_config;
     system_metrics_interval_sec := system_metrics_interval_sec default_config;
     export_interval_ms := export_interval_ms default_config;
     log_level := log_level default_config;
     excluded_urls := excluded_urls default_config |}.

(** The world after the reads of [from_env]. *)
Definition after_reads (w : World) : World :=
  {| environ := environ w; globals := globals w; events := events w ++ from_env_reads |}.

(** ** The lifecycle record *)

(** The provider handle the module keeps for a signal. *)
Definition handle_of (s : Signal) (g : Globals) : option Handle :=
  match s with
  | Traces => _tracer_provider g
  | Metrics => _meter_provider g
  | Logs => _logger_provider g
  end.

(** Is the signal enabled in the configuration. *)
Definition enabled (s : Signal) (cfg : OpticConfig) : bool :=
  match s with
  | Traces => truthy (enable_traces cfg)
  | Metrics => truthy (enable_metrics cfg)
  | Logs => truthy (enable_logs cfg)
  end.

(** The owned handles, in the order [shutdown] visits them. *)
Definition owned (g : Globals) : list (Signal * Handle) :=
  omap (λ s, (s,.) <$> handle_of s g) [Traces; Metrics; Logs].

(** Flag false and no owned handle. *)
Definition fully_uninitialized (g : Globals) : Prop :=
  _initialized g = false ∧ ∀ s, handle_of s g = None.

(** Flag true and handles exactly for the signals enabled in [cfg]. *)
Definition fully_initialized (cfg : OpticConfig) (g : Globals) : Prop :=
  _initialized g = true ∧ ∀ s, is_Some (handle_of s g) ↔ enabled s cfg = true.

(** The flag and the environment are as before, the history grows and no
    handle is dropped. *)
Definition keeps_handles (w w' : World) : Prop :=
  environ w' = environ w ∧
  events w `prefix_of` events w' ∧
  _initialized (globals w') = _initialized (globals w) ∧
  ∀ s, is_Some (handle_of s (globals w)) → is_Some (handle_of s (globals w')).

(** The world [init] leaves once every subsystem is up: the flag is set,
    the exit hook registered and the summary logged. *)
Definition mark_initialized (cfg : OpticConfig) (w : World) : World :=
  {| environ := environ w;
     globals := {| _initialized := true;
                   _tracer_provider := _tracer_provider (globals w);
                   _meter_provider := _meter_provider (globals w);
                   _logger_provider := _logger_provider (globals w) |};
     events := events w ++ [EAtexit_register_shutdown;
                            ELog "optic" logging_INFO (initialized_message cfg)] |}.

(** A run of [init] calls, one after the other. *)
Fixpoint init_all (X : External) (calls : list InitArgs) : M unit :=
  match calls with
  | [] => mret tt
  | a :: calls' => init X a;; init_all X calls'
  end.

#[global] Instance Signal_eq_dec : EqDecision Signal.
Proof. solve_decision. Defined.

(** The events a computation added to the history. *)
Definition new_events (w w' : World) : list Event :=
  drop (length (events w)) (events w').

(** The event of the flush-and-close call of an owned provider. *)
Definition shutdown_event (out : Outcome) (sp : Signal * Handle) : Event :=
  ECall (provider_shutdown sp.1 sp.2) out.

(** Was the flush-and-close of provider [p] attempted in [evs]. *)
Definition shutdown_attempted (s : Signal) (p : Handle) (evs : list Event) : bool :=
  existsb (λ ev, match ev with
                 | ECall (provider_shutdown s' p') _ =>
                     bool_decide (s' = s) && (p' =? p)%nat
                 | _ => false
                 end) evs.

(** The names [init] gives a level to. *)
Definition level_names : list string := ["DEBUG"; "INFO"; "WARNING"; "ERROR"].

(** The invariant the specification states for the lifecycle record. *)
Definition lifecycle_invariant (g : Globals) : Prop :=
  fully_uninitialized g ∨ ∃ cfg, fully_initialized cfg g.

(** What the specification asks of [shutdown] when a provider fails:
    every owned provider is attempted and the flag is reset. *)
Definition shutdown_isolates_failures (X : External) (w : World) : Prop :=
  let w' := (shutdown X w).2 in
  (∀ s p, (s, p) ∈ owned (globals w) →
          shutdown_attempted s p (new_events w w') = true) ∧
  _initialized (globals w') = false.

(** [shutdown()] then [is_initialized()] gives [False]. *)
Definition shutdown_resets_flag (X : External) (w : World) : Prop :=
  (is_initialized (shutdown X w).2).1 = Ok false.

(** Discovery returns normally. *)
Definition discovery_returns (X : External) (excluded_urls : PyVal) (w : World) : Prop :=
  ∃ w', auto_instrument X excluded_urls w = (Ok tt, w').

(** Was the target library [lib] probed in [evs]. *)
Definition library_probed (lib : string) (evs : list Event) : bool :=
  existsb (λ ev, match ev with
                 | ECall (import_module name) _ => String.eqb name lib
                 | _ => false
                 end) evs.

(** The modules the table locates the adapters in. *)
Definition adapter_modules : list string :=
  omap (λ entry, fst <$> rsplit1 ":" entry.2) INSTRUMENTORS.

(** The import probes of discovery fail the way their handlers expect:
    probing a target library raises nothing but [ImportError], looking an
    adapter up raises nothing but [ImportError] or [AttributeError]. *)
Definition probes_fail_cleanly (X : External) : Prop :=
  (∀ tr lib e, lib ∈ INSTRUMENTORS.*1 →
     ext_raise X tr (import_module lib) = Some e → isinstance e ImportError = true) ∧
  (∀ tr module e, module ∈ adapter_modules →
     ext_raise X tr (import_module module) = Some e →
     isinstance e ImportError || isinstance e AttributeError = true) ∧
  (∀ tr module name e,
     ext_raise X tr (getattr_ module name) = Some e →
     isinstance e ImportError || isinstance e AttributeError = true).

(** A table entry whose probes fail the way the handlers expect. *)
Definition entry_fails_cleanly (X : External) (entry : string * string) : Prop :=
  (∀ tr e, ext_raise X tr (import_module entry.1) = Some e →
           isinstance e ImportError = true) ∧
  ∃ module_path class_name,
    rsplit1 ":" entry.2 = Some (module_path, class_name) ∧
    (∀ tr e, ext_raise X tr (import_module module_path) = Some e →
             isinstance e ImportError || isinstance e AttributeError = true) ∧
    (∀ tr module e, ext_raise X tr (getattr_ module class_name) = Some e →
             isinstance e ImportError || isinstance e AttributeError = true).

(** ** Scenarios *)

(** A host with none of the optional packages: every import probe of
    discovery and of the sampler fails with [ModuleNotFoundError]; every
    other call succeeds. *)
Definition bare_host : External :=
  {| ext_raise := λ _ op,
       match op with
       | import_module name =>
           Some (mkExn ModuleNotFoundError ("No module named '" +:+ name +:+ "'"))
       | import_psutil => Some (mkExn ModuleNotFoundError "No module named 'psutil'")
       | _ => None
       end;
     ext_bool := λ _ _, false;
     ext_percent := λ _ _, (0 # 1)%Q;
     ext_inherited_attr := λ _ _, None;
     ext_upper := λ s, s |}.

(** A host where every package is installed and every call succeeds. *)
Definition full_host : External :=
  {| ext_raise := λ _ _, None;
     ext_bool := λ _ op, match op with hasattr_ _ _ => true | _ => false end;
     ext_percent := λ _ _, (50 # 1)%Q;
     ext_inherited_attr := λ _ _, None;
     ext_upper := λ s, s |}.

(** The bare host, except that flushing the tracer provider fails. *)
Definition failing_tracer_flush : External :=
  {| ext_raise := λ tr op,
       match op with
       | provider_shutdown Traces _ => Some (mkExn RuntimeError "flush failed")
       | _ => ext_raise bare_host tr op
       end;
     ext_bool := ext_bool bare_host;
     ext_percent := ext_percent bare_host;
     ext_inherited_attr := ext_inherited_attr bare_host;
     ext_upper := ext_upper bare_host |}.

(** The bare host, except that the metric exporter cannot be built. *)
Definition failing_metric_exporter : External :=
  {| ext_raise := λ tr op,
       match op with
       | OTLPMetricExporter _ _ => Some (mkExn ValueError "invalid endpoint")
       | _ => ext_raise bare_host tr op
       end;
     ext_bool := ext_bool bare_host;
     ext_percent := ext_percent bare_host;
     ext_inherited_attr := ext_inherited_attr bare_host;
     ext_upper := ext_upper bare_host |}.

(** The bare host, except that [sqlalchemy] is installed and broken: its
    import raises an exception that is no [ImportError]. *)
Definition broken_library_host : External :=
  {| ext_raise := λ tr op,
       match op with
       | import_module "sqlalchemy" =>
           Some (mkExn RuntimeError "incompatible interpreter")
       | _ => ext_raise bare_host tr op
       end;
     ext_bool := ext_bool bare_host;
     ext_percent := ext_percent bare_host;
     ext_inherited_attr := ext_inherited_attr bare_host;
     ext_upper := ext_upper bare_host |}.

(** A host with [flask] and [requests] and their adapters installed; the
    adapter of [flask], the instrumentor with handle 3 when discovery runs
    first, raises when it is applied. *)
Definition failing_adapter_host : External :=
  {| ext_raise := λ tr op,
       match op with
       | import_module "flask"
       | import_module "opentelemetry.instrumentation.flask"
       | import_module "requests"
       | import_module "opentelemetry.instrumentation.requests" => None
       | instrument 3 _ => Some (mkExn RuntimeError "cannot patch flask")
       | _ => ext_raise bare_host tr op
       end;
     ext_bool := ext_bool full_host;
     ext_percent := ext_percent bare_host;
     ext_inherited_attr := ext_inherited_attr bare_host;
     ext_upper := ext_upper bare_host |}.

(** A host where reading the CPU load fails. *)
Definition failing_probe_host : External :=
  {| ext_raise := λ tr op,
       match op with
       | cpu_percent => Some (mkExn OSError "cannot read /proc/stat")
       | _ => None
       end;
     ext_bool := ext_bool full_host;
     ext_percent := ext_percent full_host;
     ext_inherited_attr := ext_inherited_attr full_host;
     ext_upper := ext_upper full_host |}.

(** [init(api_key="k", service_name="svc")]. *)
Definition minimal_args : InitArgs :=
  {| arg_api_key := PStr "k"; arg_service_name := PStr "svc";
     arg_endpoint := PStr ""; arg_kwargs := [] |}.

(** [init(api_key="k", service_name="svc", log_level="verbose")]. *)
Definition verbose_args : InitArgs :=
  {| arg_api_key := PStr "k"; arg_service_name := PStr "svc";
     arg_endpoint := PStr ""; arg_kwargs := [("log_level", PStr "verbose")] |}.

(** [init()] with no argument at all. *)
Definition no_args : InitArgs :=
  {| arg_api_key := PStr ""; arg_service_name := PStr "";
     arg_endpoint := PStr ""; arg_kwargs := [] |}.

(** [init(service_name="svc", log_level=None, enable_logs=0,
    excluded_urls=[], environment="prod")]. *)
Definition mixed_args : InitArgs :=
  {| arg_api_key := PStr ""; arg_service_name := PStr "svc";
     arg_endpoint := PStr "";
     arg_kwargs := [("log_level", PNone); ("enable_logs", PInt 0);
                    ("excluded_urls", PList []); ("environment", PStr "prod")] |}.

(** An environment that sets the credential through the fallback
    variable, the endpoint through both variables and the deployment
    environment through the SDK variable. *)
Definition sample_environ : gmap string string :=
  <["OTEL_API_KEY" := "generic-key"]>
  (<["OPTIC_ENDPOINT" := "http://sdk"]>
  (<["OTEL_EXPORTER_OTLP_ENDPOINT" := "http://generic"]>
  (<["OPTIC_ENVIRONMENT" := "staging"]> ∅))).

(** ** Where an event comes from *)

(** The part of the SDK that produces an event. *)
Inductive Origin : Type :=
| Configuration
| ResourceSetup
| SignalSetup (s : Signal)
| Sampler
| Discovery
| Lifecycle
| Teardown.

#[global] Instance Origin_eq_dec : EqDecision Origin.
Proof. solve_decision. Defined.

Definition op_origin (op : Op) : Origin :=
  match op with
  | Resource_create _ => ResourceSetup
  | OTLPSpanExporter _ _ | TracerProvider _ | BatchSpanProcessor _
  | add_span_processor _ _ | set_tracer_provider _ => SignalSetup Traces
  | OTLPMetricExporter _ _ | PeriodicExportingMetricReader _ _
  | MeterProvider _ _ | set_meter_provider _ => SignalSetup Metrics
  | OTLPLogExporter _ _ | LoggerProvider _ | BatchLogRecordProcessor _
  | add_log_record_processor _ _ | LoggingHandler _ _ | addHandler _ =>
      SignalSetup Logs
  | provider_shutdown _ _ => Teardown
  | import_psutil | import_from _ _ | get_meter _ _
  | create_observable_gauge _ _ _ _ _ | cpu_percent | virtual_memory
  | disk_usage _ => Sampler
  | import_module _ | getattr_ _ _ | instantiate _
  | is_instrumented_by_opentelemetry _ | hasattr_ _ _ | instrument _ _
  | exception_str _ => Discovery
  end.

(** A log record belongs to the module whose logger wrote it. *)
Definition origin (ev : Event) : Origin :=
  match ev with
  | EGetenv _ => Configuration
  | ECall op _ => op_origin op
  | ELog logger _ _ =>
      if String.eqb logger instruments_logger then Discovery
      else if String.eqb logger system_metrics_logger then Sampler
      else Lifecycle
  | EAtexit_register_shutdown => Lifecycle
  end.

(** The event is none of those of origin [o]. *)
Definition not_from (o : Origin) (ev : Event) : bool :=
  bool_decide (origin ev ≠ o).

(** The history grows by events that all satisfy [P]; the environment is
    as before. *)
Definition emitting (P : Event → bool) (w w' : World) : Prop :=
  environ w' = environ w ∧
  ∃ evs, events w' = events w ++ evs ∧ forallb P evs = true.

(** [emitting P], and the handle of signal [s] is as before. *)
Definition emitting_keeping (P : Event → bool) (s : Signal) (w w' : World) : Prop :=
  emitting P w w' ∧ handle_of s (globals w') = handle_of s (globals w).

(** How many events of [evs] satisfy [P]. *)
Definition count_events (P : Event → bool) (evs : list Event) : nat :=
  length (List.filter P evs).

(** [atexit.register(shutdown)]. *)
Definition is_atexit_registration (ev : Event) : bool :=
  match ev with EAtexit_register_shutdown => true | _ => false end.

(** A call of an adapter's [instrument], whatever its outcome. *)
Definition is_instrument_call (ev : Event) : bool :=
  match ev with ECall (instrument _ _) _ => true | _ => false end.

(** A call of an adapter's [instrument] that returned. *)
Definition is_applied (ev : Event) : bool :=
  match ev with ECall (instrument _ _) Returned => true | _ => false end.

(** The creation of an observable gauge. *)
Definition is_gauge_creation (ev : Event) : bool :=
  match ev with ECall (create_observable_gauge _ _ _ _ _) _ => true | _ => false end.

(** The summary [auto_instrument] logs for the libraries it instrumented. *)
Definition auto_instrumented_message (instrumented : list string) : Event :=
  ELog instruments_logger logging_INFO
    [FLit "Auto-instrumented: "; FLit (String.concat ", " instrumented)].

(** Is [key] the name of an attribute of a configuration object: a field,
    the class method, or an attribute the instance inherits. *)
Definition hasattr_cfg (X : External) (kv : string * PyVal) : bool :=
  bool_decide (is_Some (field_of_name kv.1))
  || String.eqb kv.1 "from_env"
  || bool_decide (is_Some (ext_inherited_attr X kv.1 kv.2)).

(** The exporter of a signal as [init] builds it. *)
Definition exporter_of (s : Signal) (cfg : OpticConfig) : Op :=
  match s with
  | Traces => OTLPSpanExporter [FVal (endpoint cfg); FLit "/otlp/v1/traces"]
                (auth_headers cfg)
  | Metrics => OTLPMetricExporter [FVal (endpoint cfg); FLit "/otlp/v1/metrics"]
                 (auth_headers cfg)
  | Logs => OTLPLogExporter [FVal (endpoint cfg); FLit "/otlp/v1/logs"]
              (auth_headers cfg)
  end.

(** The six gauge registrations of [start_system_metrics] for a meter. *)
Definition gauge_registrations (meter : Handle) : list Event :=
  [ECall (create_observable_gauge meter "system.cpu.utilization" []
            "CPU utilization (0.0 to 1.0)" "1") Returned;
   ECall (create_observable_gauge meter "system.memory.utilization" []
            "Memory utilization (0.0 to 1.0)" "1") Returned;
   ECall (create_observable_gauge meter "system.disk.utilization" []
            "Disk utilization (0.0 to 1.0)" "1") Returned;
   ECall (create_observable_gauge meter "system.cpu.utilization" [cpu_callback]
            "CPU utilization (0.0 to 1.0)" "1") Returned;
   ECall (create_observable_gauge meter "system.memory.utilization" [memory_callback]
            "Memory utilization (0.0 to 1.0)" "1") Returned;
   ECall (create_observable_gauge meter "system.disk.utilization" [disk_callback]
            "Disk utilization (0.0 to 1.0)" "1") Returned].

(** [init(api_key="k", service_name="svc", log_level=10)]: the level given
    as the number [logging.DEBUG]. *)
Definition numeric_level_args : InitArgs :=
  {| arg_api_key := PStr "k"; arg_service_name := PStr "svc";
     arg_endpoint := PStr ""; arg_kwargs := [("log_level", PInt 10)] |}.

(** [init(api_key="k", service_name="svc", enable_traces=False)]. *)
Definition no_traces_args : InitArgs :=
  {| arg_api_key := PStr "k"; arg_service_name := PStr "svc";
     arg_endpoint := PStr ""; arg_kwargs := [("enable_traces", PBool false)] |}.

(** [init(api_key="k", service_name="svc", auto_instrument=False,
    enable_system_metrics=False)]. *)
Definition providers_only_args : InitArgs :=
  {| arg_api_key := PStr "k"; arg_service_name := PStr "svc";
     arg_endpoint := PStr "";
     arg_kwargs := [("auto_instrument", PBool false);
                    ("enable_system_metrics", PBool false)] |}.

(** [init(service_name="svc")]. *)
Definition no_key_args : InitArgs :=
  {| arg_api_key := PStr ""; arg_service_name := PStr "svc";
     arg_endpoint := PStr ""; arg_kwargs := [] |}.

(** The SDK variable of the credential is set and empty; the fallback
    variable holds a key. *)
Definition shadowed_environ : gmap string string :=
  <["OPTIC_API_KEY" := ""]> (<["OTEL_API_KEY" := "generic-key"]> ∅).

(** A host where every package is installed and every adapter reports
    that it is already applied. *)
Definition instrumented_host : External :=
  {| ext_raise := λ _ _, None;
     ext_bool := λ _ _, true;
     ext_percent := λ _ _, (50 # 1)%Q;
     ext_inherited_attr := λ _ _, None;
     ext_upper := λ s, s |}.

(** Every stage of [init] after configuration resolution respects [R],
    for the configuration [cfg]. *)
Definition stages_respect (R : relation World) (X : External) (cfg : OpticConfig) : Prop :=
  respects R (call X (Resource_create (resource_attributes cfg))) ∧
  (∀ resource, respects R (init_traces X cfg resource (auth_headers cfg))) ∧
  (∀ resource, respects R (init_metrics X cfg resource (auth_headers cfg))) ∧
  (∀ resource, respects R (init_logs X cfg resource (auth_headers cfg))) ∧
  respects R (init_system_metrics X cfg) ∧
  respects R (init_auto_instrumentation X cfg).

(** The call without the keyword options that name no attribute of the
    configuration. *)
Definition without_unknown_options (X : External) (a : InitArgs) : InitArgs :=
  {| arg_api_key := arg_api_key a;
     arg_service_name := arg_service_name a;
     arg_endpoint := arg_endpoint a;
     arg_kwargs := List.filter (hasattr_cfg X) (arg_kwargs a) |}.

(** [init(api_key="k", service_name="svc", sample_rate=0.5, debug=True)]:
    two options the configuration does not know. *)
Definition unknown_options_args : InitArgs :=
  {| arg_api_key := PStr "k"; arg_service_name := PStr "svc";
     arg_endpoint := PStr "";
     arg_kwargs := [("sample_rate", PFloat (1 # 2)); ("debug", PBool true)] |}.

(** The event is of origin [o]. *)
Definition is_from (o : Origin) (ev : Event) : bool :=
  bool_decide (origin ev = o).

(** The pipeline [init] builds for an enabled signal when every call
    returns: exporter, batching processor or periodic reader, provider,
    registration.  [resource] is the handle of the resource descriptor and
    [n] the length of the history when the block starts, so the handles of
    the objects built are [n], [S n], ... *)
Definition pipeline (X : External) (s : Signal) (cfg : OpticConfig)
    (resource : Handle) (n : nat) : list Event :=
  match s with
  | Traces =>
      [ECall (exporter_of Traces cfg) Returned;
       ECall (TracerProvider resource) Returned;
       ECall (BatchSpanProcessor n) Returned;
       ECall (add_span_processor (S n) (S (S n))) Returned;
       ECall (set_tracer_provider (S n)) Returned]
  | Metrics =>
      [ECall (exporter_of Metrics cfg) Returned;
       ECall (PeriodicExportingMetricReader n (export_interval_ms cfg)) Returned;
       ECall (MeterProvider resource [S n]) Returned;
       ECall (set_meter_provider (S (S n))) Returned]
  | Logs =>
      [ECall (exporter_of Logs cfg) Returned;
       ECall (LoggerProvider resource) Returned;
       ECall (BatchLogRecordProcessor n) Returned;
       ECall (add_log_record_processor (S n) (S (S n))) Returned]
      ++ match log_level cfg with
         | PStr level =>
             [ECall (LoggingHandler (handler_level X level) (S n)) Returned;
              ECall (addHandler (S (S (S (S n))))) Returned]
         | _ => []
         end
  end.

(** The handle of the provider in the pipeline that starts at [n]. *)
Definition provider_position (s : Signal) (n : nat) : Handle :=
  match s with
  | Traces => S n
  | Metrics => S (S n)
  | Logs => S n
  end.

(** The summary line of [auto_instrument]: a record of its logger at
    level INFO. *)
Definition is_summary (ev : Event) : bool :=
  match ev with
  | ELog logger levelno _ =>
      String.eqb logger instruments_logger && (levelno =? logging_INFO)%Z
  | _ => false
  end.

(** URL patterns with an item that is no string: joining them raises. *)
Definition unjoinable_patterns : PyVal := PList [PStr "/health"; PInt 1].

(** ** Failures of the adapters *)

(** The calls of lines 55-60, which apply an adapter. *)
Definition applies_adapter (op : Op) : bool :=
  match op with
  | instantiate _ | is_instrumented_by_opentelemetry _ | hasattr_ _ _
  | instrument _ _ => true
  | _ => false
  end.

(** The adapters fail the way the last handler expects: whatever is raised
    while an adapter is applied derives from [Exception], and the text of
    an exception can be had ([str(e)] returns). *)
Definition adapters_fail_cleanly (X : External) : Prop :=
  (∀ tr op e, applies_adapter op = true →
     ext_raise X tr op = Some e → isinstance e Exception = true) ∧
  (∀ tr e, ext_raise X tr (exception_str e) = None).

(** The host of [failing_adapter_host], except that the adapter of [flask]
    ends the interpreter instead of failing. *)
Definition exiting_adapter_host : External :=
  {| ext_raise := λ tr op,
       match op with
       | instrument 3 _ => Some (mkExn SystemExit "1")
       | _ => ext_raise failing_adapter_host tr op
       end;
     ext_bool := ext_bool failing_adapter_host;
     ext_percent := ext_percent failing_adapter_host;
     ext_inherited_attr := ext_inherited_attr failing_adapter_host;
     ext_upper := ext_upper failing_adapter_host |}.

(** The host of [failing_adapter_host], except that the exception of the
    adapter of [flask] has a [__str__] that raises. *)
Definition unprintable_failure_host : External :=
  {| ext_raise := λ tr op,
       match op with
       | exception_str _ => Some (mkExn TypeError "__str__ returned non-string")
       | _ => ext_raise failing_adapter_host tr op
       end;
     ext_bool := ext_bool failing_adapter_host;
     ext_percent := ext_percent failing_adapter_host;
     ext_inherited_attr := ext_inherited_attr failing_adapter_host;
     ext_upper := ext_upper failing_adapter_host |}.

(** A host where reading the CPU load is interrupted from the keyboard. *)
Definition interrupted_probe_host : External :=
  {| ext_raise := λ tr op,
       match op with
       | cpu_percent => Some (mkExn KeyboardInterrupt "")
       | _ => None
       end;
     ext_bool := ext_bool full_host;
     ext_percent := ext_percent full_host;
     ext_inherited_attr := ext_inherited_attr full_host;
     ext_upper := ext_upper full_host |}.

(** ** Spellings of a level name *)

(** One of the letters A-Z. *)
Definition is_capital (c : ascii) : bool :=
  (65 <=? nat_of_ascii c)%nat && (nat_of_ascii c <=? 90)%nat.

(** The same character, or the same letter in the other case. *)
Definition same_letter (c d : ascii) : bool :=
  Ascii.eqb c d
  || (is_capital c && (nat_of_ascii d =? nat_of_ascii c + 32)%nat)
  || (is_capital d && (nat_of_ascii c =? nat_of_ascii d + 32)%nat).

(** The same text, the case of the letters a-z and A-Z apart. *)
Fixpoint same_ignoring_case (a b : string) : bool :=
  match a, b with
  | EmptyString, EmptyString => true
  | String c a', String d b' => same_letter c d && same_ignoring_case a' b'
  | _, _ => false
  end.

(** The level a name stands for when names are matched without regard to
    case: that of DEBUG, INFO, WARNING or ERROR when it spells one of them,
    and INFO otherwise. *)
Definition level_by_name (name : string) : Z :=
  if same_ignoring_case name "DEBUG" then logging_DEBUG
  else if same_ignoring_case name "INFO" then logging_INFO
  else if same_ignoring_case name "WARNING" then logging_WARNING
  else if same_ignoring_case name "ERROR" then logging_ERROR
  else logging_INFO.

(** Every character is one of A-Z. *)
Fixpoint all_capital (s : string) : bool :=
  match s with
  | EmptyString => true
  | String c s' => is_capital c && all_capital s'
  end.

(** [init(api_key="k", service_name="svc", log_level="Warning")]. *)
Definition warning_args : InitArgs :=
  {| arg_api_key := PStr "k"; arg_service_name := PStr "svc";
     arg_endpoint := PStr ""; arg_kwargs := [("log_level", PStr "Warning")] |}.

(** [init(api_key="k", service_name="svc", log_level="warnıng")], with the
    dotless i of Turkish. *)
Definition dotless_args : InitArgs :=
  {| arg_api_key := PStr "k"; arg_service_name := PStr "svc";
     arg_endpoint := PStr ""; arg_kwargs := [("log_level", PStr "warnıng")] |}.

(** The bare host with the one case mapping of Unicode that matters to
    [dotless_args]: the upper-case form of the dotless i is I. *)
Definition unicode_host : External :=
  {| ext_raise := ext_raise bare_host;
     ext_bool := ext_bool bare_host;
     ext_percent := ext_percent bare_host;
     ext_inherited_attr := ext_inherited_attr bare_host;
     ext_upper := λ s, if String.eqb s "warnıng" then "WARNING" else s |}.

(** * Reasoning about computations *)

Lemma bind_unfold {A B : Type} (m : M A) (k : A → M B) (w : World) :
  (m ≫= k) w =
  match m w with
  | (Ok a, w') => k a w'
  | (Raise e, w') => (Raise e, w')
  end.
Proof. reflexivity. Qed.

Lemma bind_ok_inv {A B : Type} (m : M A) (k : A → M B) w b w' :
  (m ≫= k) w = (Ok b, w') →
  ∃ a w1, m w = (Ok a, w1) ∧ k a w1 = (Ok b, w').
Proof.
  rewrite bind_unfold. destruct (m w) as [[a|e] w1]; [eauto | discriminate].
Qed.

Lemma bind_raise_inv {A B : Type} (m : M A) (k : A → M B) w e w' :
  (m ≫= k) w = (Raise e, w') →
  m w = (Raise e, w') ∨ ∃ a w1, m w = (Ok a, w1) ∧ k a w1 = (Raise e, w').
Proof.
  rewrite bind_unfold. destruct (m w) as [[a|e0] w1]; [eauto | intros [= -> ->]; auto].
Qed.

(** ** Relations every step respects *)

Section Respects.

Context (R : relation World) `{!PreOrder R}.
Context (R_event : ∀ ev w, R w (record_event ev w)).

Lemma respects_ret {A : Type} (a : A) : respects R (mret a).
Proof. intros w r w' [= _ <-]. reflexivity. Qed.

Lemma respects_raise {A : Type} (e : Exn) : respects R (raise (A := A) e).
Proof. intros w r w' [= _ <-]. reflexivity. Qed.

Lemma respects_bind {A B : Type} (m : M A) (k : A → M B) :
  respects R m → (∀ a, respects R (k a)) → respects R (m ≫= k).
Proof.
  intros Hm Hk w r w'. rewrite bind_unfold.
  destruct (m w) as [[a|e] w1] eqn:E.
  - intros H. etrans; [exact (Hm _ _ _ E) | exact (Hk _ _ _ _ H)].
  - intros [= _ <-]. exact (Hm _ _ _ E).
Qed.

Lemma respects_try_except {A : Type} (body : M A) catches handler :
  respects R body → (∀ e, respects R (handler e)) →
  respects R (try_except body catches handler).
Proof.
  intros Hb Hh w r w'. unfold try_except.
  destruct (body w) as [[a|e] w1] eqn:E.
  - intros [= _ <-]. exact (Hb _ _ _ E).
  - destruct (catches e).
    + intros H. etrans; [exact (Hb _ _ _ E) | exact (Hh _ _ _ _ H)].
    + intros [= _ <-]. exact (Hb _ _ _ E).
Qed.

Lemma respects_for_each {A B : Type} (body : B → A → M B) xs acc :
  (∀ acc x, respects R (body acc x)) → respects R (for_each body acc xs).
Proof.
  intros Hb. revert acc. induction xs as [|x xs IH]; intros acc; simpl.
  - apply respects_ret.
  - apply respects_bind; auto.
Qed.

Lemma respects_emit ev : respects R (emit ev).
Proof. intros w r w' [= _ <-]. apply R_event. Qed.

Lemma respects_log logger levelno msg : respects R (log logger levelno msg).
Proof. apply respects_emit. Qed.

Lemma respects_get_globals : respects R get_globals.
Proof. intros w r w' [= _ <-]. reflexivity. Qed.

Lemma respects_call X op : respects R (call X op).
Proof.
  intros w r w'. unfold call.
  destruct (ext_raise X (events w) op); intros [= _ <-]; apply R_event.
Qed.

Lemma respects_call_bool X op : respects R (call_bool X op).
Proof.
  intros w r w'. unfold call_bool.
  destruct (ext_raise X (events w) op); intros [= _ <-]; apply R_event.
Qed.

Lemma respects_call_percent X op : respects R (call_percent X op).
Proof.
  intros w r w'. unfold call_percent.
  destruct (ext_raise X (events w) op); intros [= _ <-]; apply R_event.
Qed.

Lemma respects_getenv key dflt : respects R (getenv key dflt).
Proof. intros w r w' [= _ <-]. apply R_event. Qed.

End Respects.

Create HintDb respects.

#[global] Hint Resolve respects_ret respects_raise respects_emit respects_log
  respects_get_globals respects_call respects_call_bool respects_call_percent
  respects_getenv : respects.

(** Discharges [respects R m] by following the shape of [m]. *)
Ltac respects_step :=
  match goal with
  | |- PreOrder _ => exact _
  | |- respects _ (mbind _ _) => apply respects_bind
  | |- respects _ (try_except _ _ _) => apply respects_try_except
  | |- respects _ (for_each _ _ _) => apply respects_for_each
  | |- respects _ (match ?x with _ => _ end) => destruct x
  | |- ∀ _, _ => intros ?
  | |- _ => solve [eauto with respects]
  end.

Ltac respects_tac := repeat respects_step.

#[global] Instance only_events_preorder : PreOrder only_events.
Proof.
  split.
  - intros w. repeat split. reflexivity.
  - intros w1 w2 w3 (E1 & G1 & P1) (E2 & G2 & P2). repeat split.
    + congruence.
    + congruence.
    + etrans; eassumption.
Qed.

Lemma only_events_event ev w : only_events w (record_event ev w).
Proof. repeat split. simpl. apply prefix_app_r. reflexivity. Qed.

#[global] Hint Resolve only_events_preorder only_events_event : respects.

Lemma probe_library_only_events X lib_name :
  respects only_events (probe_library X lib_name).
Proof. unfold probe_library. respects_tac. Qed.

Lemma probe_instrumentor_only_events X lib_name module_path class_name :
  respects only_events (probe_instrumentor X lib_name module_path class_name).
Proof. unfold probe_instrumentor. respects_tac. Qed.

Lemma apply_instrumentor_only_events X excluded lib_name cls instrumented :
  respects only_events (apply_instrumentor X excluded lib_name cls instrumented).
Proof. unfold apply_instrumentor. respects_tac. Qed.

#[global] Hint Resolve probe_library_only_events probe_instrumentor_only_events
  apply_instrumentor_only_events : respects.

Lemma instrument_it_only_events X excluded lib_name cls instrumented :
  respects only_events (instrument_it X excluded lib_name cls instrumented).
Proof. unfold instrument_it. respects_tac. Qed.

#[global] Hint Resolve instrument_it_only_events : respects.

Lemma instrument_entry_only_events X excluded instrumented entry :
  respects only_events (instrument_entry X excluded instrumented entry).
Proof. unfold instrument_entry. destruct entry. respects_tac. Qed.

#[global] Hint Resolve instrument_entry_only_events : respects.

Lemma auto_instrument_only_events X table excluded :
  respects only_events (auto_instrument_over X table excluded).
Proof. unfold auto_instrument_over. respects_tac. Qed.

Lemma start_system_metrics_only_events X interval :
  respects only_events (start_system_metrics X interval).
Proof. unfold start_system_metrics. respects_tac. Qed.

Lemma run_callback_only_events X cb : respects only_events (run_callback X cb).
Proof.
  destruct cb; unfold run_callback, _cpu_callback, _memory_callback, _disk_callback;
    respects_tac.
Qed.

(** * Configuration resolution *)

(** ** Fields *)

Lemma field_of_name_name f : field_of_name (field_name f) = Some f.
Proof. destruct f; reflexivity. Qed.

Lemma field_of_name_Some key f : field_of_name key = Some f → key = field_name f.
Proof.
  unfold field_of_name. intros H. apply List.find_some in H as [_ H].
  symmetry. apply String.eqb_eq. exact H.
Qed.

Lemma field_name_inj f g : field_name f = field_name g → f = g.
Proof.
  intros H. pose proof (field_of_name_name f) as Hf.
  rewrite H, field_of_name_name in Hf. congruence.
Qed.

Lemma get_set_same f v c : get_field f (set_field f v c) = v.
Proof. destruct f; reflexivity. Qed.

Lemma get_set_other f g v c : f ≠ g → get_field g (set_field f v c) = get_field g c.
Proof. intros H. destruct f, g; try reflexivity; congruence. Qed.

(** ** Dictionaries *)

Lemma dict_get_None key (d : Dict) : key ∉ d.*1 → dict_get key d = None.
Proof.
  induction d as [|[k v] d IH]; simpl; [done|].
  intros H. apply not_elem_of_cons in H as [Hne H].
  destruct (String.eqb_spec k key); [congruence | auto].
Qed.

Lemma dict_get_elem key v (d : Dict) :
  NoDup d.*1 → (key, v) ∈ d → dict_get key d = Some v.
Proof.
  induction d as [|[k v0] d IH]; simpl; intros Hnd Hin.
  - by apply elem_of_nil in Hin.
  - apply NoDup_cons in Hnd as [Hk Hnd].
    apply elem_of_cons in Hin as [[= -> ->] | Hin].
    + by rewrite String.eqb_refl.
    + destruct (String.eqb_spec k key) as [-> | _]; [| auto].
      exfalso. apply Hk. apply list_elem_of_fmap. by exists (key, v).
Qed.

Lemma dict_get_set_eq key v (d : Dict) : dict_get key (dict_set key v d) = Some v.
Proof.
  induction d as [|[k v0] d IH]; simpl.
  - by rewrite String.eqb_refl.
  - destruct (String.eqb_spec k key) as [-> | Hne]; simpl.
    + by rewrite String.eqb_refl.
    + destruct (String.eqb_spec k key); [congruence | exact IH].
Qed.

Lemma dict_get_set_ne key key' v (d : Dict) :
  key ≠ key' → dict_get key' (dict_set key v d) = dict_get key' d.
Proof.
  intros Hne. induction d as [|[k v0] d IH]; simpl.
  - destruct (String.eqb_spec key key'); [congruence | done].
  - destruct (String.eqb_spec k key) as [-> | Hk]; simpl.
    + destruct (String.eqb_spec key key'); [congruence | done].
    + destruct (String.eqb_spec k key'); [done | exact IH].
Qed.

(** Dropping the [None] options, read through [dict_get]. *)
Lemma dict_get_filter key (d : Dict) :
  NoDup d.*1 →
  dict_get key (List.filter (λ kv, negb (is_None kv.2)) d) =
  match dict_get key d with
  | Some v => if is_None v then None else Some v
  | None => None
  end.
Proof.
  induction d as [|[k v] d IH]; simpl; intros Hnd; [done|].
  apply NoDup_cons in Hnd as [Hk Hnd].
  destruct (String.eqb_spec k key) as [-> | Hne].
  - destruct (is_None v) eqn:Hv; simpl.
    + rewrite IH by done. by rewrite dict_get_None.
    + by rewrite String.eqb_refl.
  - destruct (is_None v); simpl.
    + auto.
    + destruct (String.eqb_spec k key); [congruence | auto].
Qed.

(** The overrides that reach [from_env] are the explicit overrides. *)
Lemma build_overrides_get a f :
  kwargs_wf (arg_kwargs a) →
  dict_get (field_name f) (build_overrides a) = explicit_override a f.
Proof.
  intros [Hnd Hnamed].
  apply Forall_cons in Hnamed as [Hk1 Hnamed].
  apply Forall_cons in Hnamed as [Hk2 Hnamed].
  apply Forall_cons in Hnamed as [Hk3 _].
  pose proof (dict_get_filter "api_key" _ Hnd) as G1.
  pose proof (dict_get_filter "service_name" _ Hnd) as G2.
  pose proof (dict_get_filter "endpoint" _ Hnd) as G3.
  rewrite (dict_get_None _ (arg_kwargs a)) in G1 by done.
  rewrite (dict_get_None _ (arg_kwargs a)) in G2 by done.
  rewrite (dict_get_None _ (arg_kwargs a)) in G3 by done.
  pose proof (dict_get_filter (field_name f) _ Hnd) as G.
  unfold build_overrides, explicit_override.
  destruct (truthy (arg_api_key a)), (truthy (arg_service_name a)),
    (truthy (arg_endpoint a)), f; simpl in *;
    repeat first
      [ rewrite dict_get_set_eq
      | rewrite dict_get_set_ne by discriminate ];
    first [ reflexivity | assumption ].
Qed.

(** ** [from_env] *)

Lemma env_config_field env f : get_field f (env_config env) = env_or_default env f.
Proof.
  unfold env_or_default.
  destruct f; simpl; try reflexivity;
    repeat match goal with
           | |- context [env !! ?k] => destruct (env !! k); simpl
           end; reflexivity.
Qed.

(** Applying the overrides touches nothing but the configuration. *)
Lemma setattr_loop_world X overrides cfg w r w' :
  for_each (setattr_if_hasattr X) cfg overrides w = (r, w') → w' = w.
Proof.
  revert cfg. induction overrides as [|[key value] ov IH]; intros cfg; simpl.
  - by intros [= _ <-].
  - rewrite bind_unfold. unfold setattr_if_hasattr at 1.
    destruct (field_of_name key); [exact (IH _) |].
    destruct (String.eqb key "from_env"); [exact (IH _) |].
    destruct (ext_inherited_attr X key value) as [[e|]|];
      [by intros [= _ <-] | exact (IH _) | exact (IH _)].
Qed.

(** Each field ends up with its override, or stays as it was. *)
Lemma setattr_loop_fields X overrides cfg w cfg' w' f :
  NoDup overrides.*1 →
  for_each (setattr_if_hasattr X) cfg overrides w = (Ok cfg', w') →
  get_field f cfg' =
  match dict_get (field_name f) overrides with
  | Some v => v
  | None => get_field f cfg
  end.
Proof.
  revert cfg. induction overrides as [|[key value] ov IH]; intros cfg Hnd; simpl.
  - by intros [= <- _].
  - apply NoDup_cons in Hnd as [Hkey Hnd].
    rewrite bind_unfold. unfold setattr_if_hasattr at 1.
    destruct (field_of_name key) as [g|] eqn:Hg.
    + apply field_of_name_Some in Hg as ->. intros H.
      rewrite (IH _ Hnd H).
      destruct (String.eqb_spec (field_name g) (field_name f)) as [Heq | Hne].
      * apply field_name_inj in Heq as ->.
        rewrite dict_get_None by done. apply get_set_same.
      * destruct (dict_get (field_name f) ov); [done |].
        apply get_set_other. congruence.
    + assert (String.eqb key (field_name f) = false) as ->.
      { apply String.eqb_neq. intros ->. by rewrite field_of_name_name in Hg. }
      destruct (String.eqb key "from_env"); [exact (IH _ Hnd) |].
      destruct (ext_inherited_attr X key value) as [[e|]|];
        [discriminate | exact (IH _ Hnd) | exact (IH _ Hnd)].
Qed.

Lemma from_env_unfold X overrides w :
  from_env X overrides w =
  for_each (setattr_if_hasattr X) (env_config (environ w)) overrides (after_reads w).
Proof.
  unfold from_env, after_reads, from_env_reads, env_config.
  unfold mbind, M_bind, getenv, record_event. simpl.
  repeat rewrite <- app_assoc. reflexivity.
Qed.

Lemma from_env_world X overrides w r w' :
  from_env X overrides w = (r, w') → w' = after_reads w.
Proof. rewrite from_env_unfold. apply setattr_loop_world. Qed.

Lemma from_env_fields X overrides w cfg w' f :
  NoDup overrides.*1 →
  from_env X overrides w = (Ok cfg, w') →
  get_field f cfg =
  match dict_get (field_name f) overrides with
  | Some v => v
  | None => env_or_default (environ w) f
  end.
Proof.
  intros Hnd. rewrite from_env_unfold. intros H.
  rewrite (setattr_loop_fields _ _ _ _ _ _ f Hnd H).
  by rewrite env_config_field.
Qed.

(** The overrides built by [init] have distinct keys. *)
Lemma dict_set_keys key v (d : Dict) :
  (dict_set key v d).*1 = if bool_decide (key ∈ d.*1) then d.*1 else d.*1 ++ [key].
Proof.
  induction d as [|[k v0] d IH].
  - rewrite bool_decide_eq_false_2 by apply not_elem_of_nil. done.
  - cbn [dict_set].
    destruct (String.eqb_spec k key) as [-> | Hne]; rewrite !fmap_cons; cbn [fst].
    + rewrite bool_decide_eq_true_2 by (apply elem_of_cons; auto). done.
    + rewrite IH. destruct (bool_decide (key ∈ d.*1)) eqn:E.
      * apply bool_decide_eq_true_1 in E.
        rewrite bool_decide_eq_true_2 by (apply elem_of_cons; auto). done.
      * apply bool_decide_eq_false_1 in E.
        rewrite bool_decide_eq_false_2; [done |].
        intros [?|?]%elem_of_cons; congruence.
Qed.

Lemma dict_set_NoDup key v (d : Dict) : NoDup d.*1 → NoDup (dict_set key v d).*1.
Proof.
  intros H. rewrite dict_set_keys. case_bool_decide; [done |].
  apply NoDup_app. split_and!; [done | | apply NoDup_singleton].
  intros x Hx ->%list_elem_of_singleton. done.
Qed.

Lemma filter_keys_NoDup (p : string * PyVal → bool) (d : Dict) :
  NoDup d.*1 → NoDup (List.filter p d).*1.
Proof.
  induction d as [|[k v] d IH]; simpl; [done|].
  intros [Hk Hnd]%NoDup_cons. destruct (p (k, v)); simpl; [| auto].
  apply NoDup_cons. split; [| auto].
  intros [[k' v'] [Heq Hin]]%list_elem_of_fmap. simpl in Heq. subst k'.
  apply list_elem_of_In, List.filter_In in Hin as [Hin _].
  apply Hk, list_elem_of_fmap. exists (k, v'). split; [done |].
  by apply list_elem_of_In.
Qed.

Lemma build_overrides_NoDup a :
  NoDup (arg_kwargs a).*1 → NoDup (build_overrides a).*1.
Proof.
  intros H. unfold build_overrides.
  destruct (truthy (arg_api_key a)), (truthy (arg_service_name a)),
    (truthy (arg_endpoint a));
    repeat apply dict_set_NoDup; by apply filter_keys_NoDup.
Qed.

(** ** The priority order *)

(** C6.  For every configuration field independently, the value [init]
    resolves follows the priority order: a non-empty explicit override of
    the call site, else the SDK-specific environment variable, else the
    generic fallback variable, else the hard-coded default. *)
Theorem resolution_follows_priority X a w cfg w' :
  kwargs_wf (arg_kwargs a) →
  from_env X (build_overrides a) w = (Ok cfg, w') →
  ∀ f, get_field f cfg = by_priority (environ w) a f.
Proof.
  intros Hwf H f.
  rewrite (from_env_fields _ _ _ _ _ f (build_overrides_NoDup _ (proj1 Hwf)) H).
  rewrite build_overrides_get by done. reflexivity.
Qed.

Lemma resolution_follows_priority_witness :
  kwargs_wf (arg_kwargs mixed_args) ∧
  ∃ cfg w',
    from_env bare_host (build_overrides mixed_args) (fresh sample_environ) = (Ok cfg, w') ∧
    get_field F_api_key cfg = PStr "generic-key" ∧
    get_field F_endpoint cfg = PStr "http://sdk" ∧
    get_field F_environment cfg = PStr "prod" ∧
    get_field F_export_interval_ms cfg = PInt 10000.
Proof.
  split; [compute_done |].
  eexists _, _. split; [vm_compute; reflexivity |].
  rewrite !(resolution_follows_priority bare_host mixed_args (fresh sample_environ) _ _
              ltac:(compute_done) ltac:(vm_compute; reflexivity)).
  vm_compute. auto.
Defined.

(** C9.  An extra keyword option passed as [None] is dropped before the
    configuration is resolved, so its field takes the environment or
    default value; an option with any other value, falsy ones included,
    overrides its field. *)
Theorem none_option_is_discarded X a key value f w cfg w' :
  kwargs_wf (arg_kwargs a) →
  (key, value) ∈ arg_kwargs a →
  field_of_name key = Some f →
  from_env X (build_overrides a) w = (Ok cfg, w') →
  (value = PNone →
     dict_get key (build_overrides a) = None ∧
     get_field f cfg = env_or_default (environ w) f) ∧
  (value ≠ PNone → get_field f cfg = value).
Proof.
  intros Hwf Hin Hf H.
  apply field_of_name_Some in Hf as ->.
  pose proof (from_env_fields _ _ _ _ _ f (build_overrides_NoDup _ (proj1 Hwf)) H)
    as Hcfg.
  pose proof (build_overrides_get a f Hwf) as Hov.
  rewrite Hov in Hcfg.
  pose proof (dict_get_elem _ _ _ (proj1 Hwf) Hin) as Hget.
  assert (explicit_override a f = if is_None value then None else Some value) as Hexp.
  { destruct Hwf as [_ Hnamed].
    apply Forall_cons in Hnamed as [Hk1 Hnamed].
    apply Forall_cons in Hnamed as [Hk2 Hnamed].
    apply Forall_cons in Hnamed as [Hk3 _].
    assert (field_name f ∈ (arg_kwargs a).*1) as Hkey.
    { apply list_elem_of_fmap. by exists (field_name f, value). }
    unfold explicit_override.
    destruct f; try (by rewrite Hget); simpl in Hkey; done. }
  rewrite Hexp in Hcfg, Hov. split.
  - intros ->. simpl in *. done.
  - intros Hne. destruct value; simpl in *; done.
Qed.

Lemma none_option_is_discarded_witness :
  ∃ cfg w',
    from_env bare_host (build_overrides mixed_args) (fresh sample_environ) = (Ok cfg, w') ∧
    get_field F_log_level cfg = PStr "INFO" ∧
    get_field F_enable_logs cfg = PInt 0 ∧
    get_field F_excluded_urls cfg = PList [].
Proof.
  eexists _, _. split; [vm_compute; reflexivity |].
  pose proof (λ key value f Hin Hf,
    none_option_is_discarded bare_host mixed_args key value f (fresh sample_environ) _ _
      ltac:(compute_done) Hin Hf ltac:(vm_compute; reflexivity)) as H.
  split_and!.
  - refine (proj2 (proj1 (H "log_level" PNone F_log_level _ _) _));
      [by repeat constructor | reflexivity | reflexivity].
  - refine (proj2 (H "enable_logs" (PInt 0) F_enable_logs _ _) _);
      [by repeat constructor | reflexivity | discriminate].
  - refine (proj2 (H "excluded_urls" (PList []) F_excluded_urls _ _) _);
      [by repeat constructor | reflexivity | discriminate].
Defined.

(** * The lifecycle *)

#[global] Instance keeps_handles_preorder : PreOrder keeps_handles.
Proof.
  split.
  - intros w. by repeat split.
  - intros w1 w2 w3 (E1 & P1 & F1 & H1) (E2 & P2 & F2 & H2). repeat split.
    + congruence.
    + etrans; eassumption.
    + congruence.
    + auto.
Qed.

Lemma keeps_handles_event ev w : keeps_handles w (record_event ev w).
Proof. repeat split; simpl; [apply prefix_app_r; reflexivity | auto]. Qed.

Lemma only_events_keeps_handles w w' : only_events w w' → keeps_handles w w'.
Proof. intros (E & G & P). repeat split; [done | done | by rewrite G | by rewrite G]. Qed.

#[global] Hint Resolve keeps_handles_preorder keeps_handles_event : respects.

Lemma set_provider_keeps_handles h :
  respects keeps_handles (set_tracer_provider_global h) ∧
  respects keeps_handles (set_meter_provider_global h) ∧
  respects keeps_handles (set_logger_provider_global h).
Proof.
  split_and!; intros w r w' [= _ <-]; (repeat split; simpl; [done |]);
    intros []; simpl; eauto.
Qed.

Lemma init_traces_keeps_handles X cfg resource headers :
  respects keeps_handles (init_traces X cfg resource headers).
Proof.
  unfold init_traces. pose proof (set_provider_keeps_handles) as Hset.
  respects_tac; apply Hset.
Qed.

Lemma init_metrics_keeps_handles X cfg resource headers :
  respects keeps_handles (init_metrics X cfg resource headers).
Proof.
  unfold init_metrics. pose proof (set_provider_keeps_handles) as Hset.
  respects_tac; apply Hset.
Qed.

Lemma init_logs_keeps_handles X cfg resource headers :
  respects keeps_handles (init_logs X cfg resource headers).
Proof.
  unfold init_logs. pose proof (set_provider_keeps_handles) as Hset.
  respects_tac; apply Hset.
Qed.

Lemma init_system_metrics_only_events X cfg :
  respects only_events (init_system_metrics X cfg).
Proof.
  unfold init_system_metrics.
  destruct (_ && _); [apply start_system_metrics_only_events | respects_tac].
Qed.

Lemma init_auto_instrumentation_only_events X cfg :
  respects only_events (init_auto_instrumentation X cfg).
Proof.
  unfold init_auto_instrumentation.
  destruct (truthy _); [apply auto_instrument_only_events | respects_tac].
Qed.

Lemma from_env_only_events X overrides : respects only_events (from_env X overrides).
Proof.
  intros w r w' H. apply from_env_world in H as ->.
  repeat split. simpl. apply prefix_app_r. reflexivity.
Qed.

(** ** The three provider blocks of [init] *)

Lemma lookup_after (l pre : list Event) x post :
  (l ++ pre ++ x :: post) !! (length l + length pre)%nat = Some x.
Proof.
  rewrite app_assoc, <- length_app. apply list_lookup_middle. reflexivity.
Qed.

(** Case analysis on whatever the computation on the left inspects
    first. *)
Ltac scrutinee t :=
  lazymatch t with
  | match ?x with _ => _ end => scrutinee x
  | (match ?x with _ => _ end) _ => scrutinee x
  | _ => t
  end.

Ltac case_head :=
  lazymatch goal with
  | |- (match ?x with _ => _ end = _) → _ =>
      let y := scrutinee x in destruct y eqn:?; simpl
  | |- ((match ?x with _ => _ end) _ = _) → _ =>
      let y := scrutinee x in destruct y eqn:?; simpl
  end.

Ltac unfold_entry :=
  unfold instrument_entry, probe_library, probe_instrumentor, instrument_it,
    apply_instrumentor, try_except, mbind, M_bind, call, call_bool, log, emit,
    mret, M_ret, raise, record_event;
  simpl.

(** Runs a block whose result is known, case by case on the answers of
    the collaborators. *)
Ltac run_block H :=
  unfold mbind, M_bind, call, mret, M_ret, raise, set_tracer_provider_global,
    set_meter_provider_global, set_logger_provider_global, get_globals,
    set_globals, with_globals, record_event in H;
  simpl in H;
  repeat match type of H with
         | context [ext_raise ?X ?t ?o] =>
             destruct (ext_raise X t o) eqn:?; simpl in H
         end;
  try discriminate H;
  injection H as <-; simpl.

Ltac find_event n :=
  rewrite <- ?app_assoc, ?length_app; simpl;
  match n with
  | 1%nat => apply (lookup_after _ [_])
  | 2%nat => apply (lookup_after _ [_; _])
  end.

Lemma init_traces_ok X cfg resource headers w w' :
  init_traces X cfg resource headers w = (Ok tt, w') →
  handle_of Metrics (globals w') = handle_of Metrics (globals w) ∧
  handle_of Logs (globals w') = handle_of Logs (globals w) ∧
  if enabled Traces cfg
  then ∃ h, handle_of Traces (globals w') = Some h ∧
            events w' !! h = Some (ECall (TracerProvider resource) Returned)
  else globals w' = globals w.
Proof.
  unfold init_traces. simpl. destruct (truthy (enable_traces cfg)); intros H.
  - run_block H. split_and!; [done | done |].
    eexists. split; [reflexivity |]. find_event 1%nat.
  - injection H as <-. done.
Qed.

Lemma init_metrics_ok X cfg resource headers w w' :
  init_metrics X cfg resource headers w = (Ok tt, w') →
  handle_of Traces (globals w') = handle_of Traces (globals w) ∧
  handle_of Logs (globals w') = handle_of Logs (globals w) ∧
  if enabled Metrics cfg
  then ∃ h reader, handle_of Metrics (globals w') = Some h ∧
            events w' !! h = Some (ECall (MeterProvider resource [reader]) Returned)
  else globals w' = globals w.
Proof.
  unfold init_metrics. simpl. destruct (truthy (enable_metrics cfg)); intros H.
  - run_block H. split_and!; [done | done |].
    eexists _, _. split; [reflexivity |]. find_event 2%nat.
  - injection H as <-. done.
Qed.

Lemma init_logs_ok X cfg resource headers w w' :
  init_logs X cfg resource headers w = (Ok tt, w') →
  handle_of Traces (globals w') = handle_of Traces (globals w) ∧
  handle_of Metrics (globals w') = handle_of Metrics (globals w) ∧
  if enabled Logs cfg
  then ∃ h s, handle_of Logs (globals w') = Some h ∧
            events w' !! h = Some (ECall (LoggerProvider resource) Returned) ∧
            log_level cfg = PStr s ∧
            ECall (LoggingHandler (handler_level X s) h) Returned ∈ events w'
  else globals w' = globals w.
Proof.
  unfold init_logs. simpl. destruct (truthy (enable_logs cfg)); intros H.
  - destruct (log_level cfg) eqn:Hlevel; run_block H. split_and!; [done | done |].
    eexists _, _. split_and!; [reflexivity | find_event 1%nat | reflexivity |].
    apply elem_of_app. left. apply elem_of_app. right. by constructor.
  - injection H as <-. done.
Qed.

(** ** [init] step by step *)

Lemma init_when_initialized X a w :
  _initialized (globals w) = true → init X a w = (Ok tt, w).
Proof. intros H. unfold init. rewrite bind_unfold. simpl. by rewrite H. Qed.

Lemma init_when_uninitialized X a w :
  _initialized (globals w) = false →
  init X a w =
  (cfg ← from_env X (build_overrides a);
   if negb (truthy (api_key cfg)) then raise api_key_required
   else if negb (truthy (service_name cfg)) then raise service_name_required
   else
     resource ← call X (Resource_create (resource_attributes cfg));
     init_traces X cfg resource (auth_headers cfg);;
     init_metrics X cfg resource (auth_headers cfg);;
     init_logs X cfg resource (auth_headers cfg);;
     init_system_metrics X cfg;;
     init_auto_instrumentation X cfg;;
     set_initialized true;;
     emit EAtexit_register_shutdown;;
     log "optic" logging_INFO (initialized_message cfg)) w.
Proof. intros H. unfold init. rewrite bind_unfold. simpl. by rewrite H. Qed.

(** A successful [init] of an uninitialized process went through every
    stage. *)
Lemma init_ok_inv X a w w' :
  _initialized (globals w) = false →
  init X a w = (Ok tt, w') →
  ∃ cfg resource w1 w2 w3 w4 w5 w6,
    from_env X (build_overrides a) w = (Ok cfg, after_reads w) ∧
    truthy (api_key cfg) = true ∧
    truthy (service_name cfg) = true ∧
    call X (Resource_create (resource_attributes cfg)) (after_reads w) = (Ok resource, w1) ∧
    init_traces X cfg resource (auth_headers cfg) w1 = (Ok tt, w2) ∧
    init_metrics X cfg resource (auth_headers cfg) w2 = (Ok tt, w3) ∧
    init_logs X cfg resource (auth_headers cfg) w3 = (Ok tt, w4) ∧
    init_system_metrics X cfg w4 = (Ok tt, w5) ∧
    init_auto_instrumentation X cfg w5 = (Ok tt, w6) ∧
    w' = mark_initialized cfg w6.
Proof.
  intros Hflag. rewrite init_when_uninitialized by done. intros H.
  apply bind_ok_inv in H as (cfg & w0 & Hcfg & H).
  pose proof (from_env_world _ _ _ _ _ Hcfg) as ->.
  destruct (truthy (api_key cfg)) eqn:Hkey; [| discriminate H].
  destruct (truthy (service_name cfg)) eqn:Hname; [| discriminate H].
  simpl in H.
  apply bind_ok_inv in H as (resource & w1 & Hres & H).
  apply bind_ok_inv in H as ([] & w2 & Htraces & H).
  apply bind_ok_inv in H as ([] & w3 & Hmetrics & H).
  apply bind_ok_inv in H as ([] & w4 & Hlogs & H).
  apply bind_ok_inv in H as ([] & w5 & Hsampler & H).
  apply bind_ok_inv in H as ([] & w6 & Hdiscovery & H).
  exists cfg, resource, w1, w2, w3, w4, w5, w6. split_and!; try done.
  injection H as <-. unfold mark_initialized, record_event, with_globals. simpl.
  by rewrite <- app_assoc.
Qed.

(** An [init] that raises has not touched the flag and has dropped no
    handle. *)
Lemma init_raise_keeps_handles X a w e w' :
  init X a w = (Raise e, w') → keeps_handles w w'.
Proof.
  destruct (_initialized (globals w)) eqn:Hflag.
  { by rewrite init_when_initialized. }
  rewrite init_when_uninitialized by done. intros H.
  assert (∀ {A} (m : M A) w1 r w2, respects only_events m → m w1 = (r, w2) →
            keeps_handles w1 w2) as Honly.
  { intros A m w1 r w2 Hm Hrun. apply only_events_keeps_handles. eauto. }
  apply bind_raise_inv in H as [H | (cfg & w0 & Hcfg & H)].
  { exact (Honly _ _ _ _ _ (from_env_only_events _ _) H). }
  pose proof (Honly _ _ _ _ _ (from_env_only_events _ _) Hcfg) as S0.
  destruct (truthy (api_key cfg)); simpl in H; [| by injection H as _ <-].
  destruct (truthy (service_name cfg)); simpl in H; [| by injection H as _ <-].
  apply bind_raise_inv in H as [H | (resource & w1 & Hres & H)].
  { etrans; [exact S0 |]. eapply respects_call; [| exact H]; eauto with respects. }
  assert (keeps_handles w w1) as S1.
  { etrans; [exact S0 |]. eapply respects_call; [| exact Hres]; eauto with respects. }
  clear S0 Hcfg Hres.
  apply bind_raise_inv in H as [H | ([] & w2 & Hstep & H)].
  { etrans; [exact S1 |]. exact (init_traces_keeps_handles _ _ _ _ _ _ _ H). }
  assert (keeps_handles w w2) as S2.
  { etrans; [exact S1 |]. exact (init_traces_keeps_handles _ _ _ _ _ _ _ Hstep). }
  clear S1 Hstep.
  apply bind_raise_inv in H as [H | ([] & w3 & Hstep & H)].
  { etrans; [exact S2 |]. exact (init_metrics_keeps_handles _ _ _ _ _ _ _ H). }
  assert (keeps_handles w w3) as S3.
  { etrans; [exact S2 |]. exact (init_metrics_keeps_handles _ _ _ _ _ _ _ Hstep). }
  clear S2 Hstep.
  apply bind_raise_inv in H as [H | ([] & w4 & Hstep & H)].
  { etrans; [exact S3 |]. exact (init_logs_keeps_handles _ _ _ _ _ _ _ H). }
  assert (keeps_handles w w4) as S4.
  { etrans; [exact S3 |]. exact (init_logs_keeps_handles _ _ _ _ _ _ _ Hstep). }
  clear S3 Hstep.
  apply bind_raise_inv in H as [H | ([] & w5 & Hstep & H)].
  { etrans; [exact S4 |]. exact (Honly _ _ _ _ _ (init_system_metrics_only_events _ _) H). }
  assert (keeps_handles w w5) as S5.
  { etrans; [exact S4 |].
    exact (Honly _ _ _ _ _ (init_system_metrics_only_events _ _) Hstep). }
  clear S4 Hstep.
  apply bind_raise_inv in H as [H | ([] & w6 & Hstep & H)].
  { etrans; [exact S5 |].
    exact (Honly _ _ _ _ _ (init_auto_instrumentation_only_events _ _) H). }
  discriminate H.
Qed.

(** ** Idempotent initialization *)

Lemma init_ok_initialized X a w w' :
  init X a w = (Ok tt, w') → _initialized (globals w') = true.
Proof.
  destruct (_initialized (globals w)) eqn:Hflag.
  - rewrite init_when_initialized by done. by intros [= <-].
  - intros H. apply init_ok_inv in H as (? & ? & ? & ? & ? & ? & ? & ? & H); [| done].
    destruct H as (_ & _ & _ & _ & _ & _ & _ & _ & _ & ->). reflexivity.
Qed.

Lemma init_all_when_initialized X calls w :
  _initialized (globals w) = true → init_all X calls w = (Ok tt, w).
Proof.
  intros H. induction calls as [|a calls IH]; simpl; [done |].
  rewrite bind_unfold, init_when_initialized by done. exact IH.
Qed.

(** C1.  Once an [init] call has succeeded, every later [init] call (any
    number of them, with any arguments, no [shutdown] in between) returns
    at once: it reads no environment variable, constructs no provider and
    runs no discovery.  The world after the later calls (flag, provider
    handles and the whole history of external calls) is the world after
    the first call alone.  More generally an [init] call returns at once,
    changing nothing, at any point where [is_initialized()] is true. *)
Theorem init_is_idempotent X a w w1 later :
  init X a w = (Ok tt, w1) →
  is_initialized w1 = (Ok true, w1) ∧
  (∀ a', init X a' w1 = (Ok tt, w1)) ∧
  init_all X later w1 = (Ok tt, w1) ∧
  (∀ a' w2, is_initialized w2 = (Ok true, w2) → init X a' w2 = (Ok tt, w2)).
Proof.
  intros H. apply init_ok_initialized in H. split_and!.
  - unfold is_initialized. rewrite bind_unfold. simpl. by rewrite H.
  - intros a'. by apply init_when_initialized.
  - by apply init_all_when_initialized.
  - intros a' w2 Hquery. apply init_when_initialized.
    unfold is_initialized in Hquery. rewrite bind_unfold in Hquery.
    simpl in Hquery. by injection Hquery as ->.
Qed.

Lemma init_is_idempotent_witness :
  ∃ w1,
    init bare_host minimal_args (fresh ∅) = (Ok tt, w1) ∧
    init_all bare_host [minimal_args; no_args; mixed_args] w1 = (Ok tt, w1).
Proof.
  eexists. split; [vm_compute; reflexivity |].
  refine (proj1 (proj2 (proj2
            (init_is_idempotent bare_host minimal_args (fresh ∅) _ _ _)))).
  vm_compute. reflexivity.
Defined.

(** ** Validation *)

(** C3.  When the resolved configuration has an empty credential or an
    empty service name (the test of the code is [not cfg.api_key],
    [not cfg.service_name]), [init] raises the [ValueError] that stands for
    the specification's validation error.  Nothing was constructed and
    neither the sampler nor discovery ran: the history has grown by the
    environment reads of [from_env] only, and the module globals are as
    before. *)
Theorem validation_precedes_effects X a w cfg w0 :
  _initialized (globals w) = false →
  from_env X (build_overrides a) w = (Ok cfg, w0) →
  truthy (api_key cfg) = false ∨ truthy (service_name cfg) = false →
  ∃ e, init X a w = (Raise e, w0) ∧
       exn_class e = ValueError ∧
       globals w0 = globals w ∧
       environ w0 = environ w ∧
       events w0 = events w ++ from_env_reads.
Proof.
  intros Hflag Hcfg Hempty.
  pose proof (from_env_world _ _ _ _ _ Hcfg) as ->.
  rewrite init_when_uninitialized by done. rewrite bind_unfold, Hcfg.
  destruct (truthy (api_key cfg)) eqn:Hkey; simpl.
  - destruct Hempty as [? | ->]; [done |]. simpl.
    exists service_name_required. by split_and!.
  - exists api_key_required. by split_and!.
Qed.

Lemma validation_precedes_effects_witness :
  ∃ e w0,
    init bare_host no_args (fresh sample_environ) = (Raise e, w0) ∧
    exn_class e = ValueError ∧
    globals w0 = globals (fresh sample_environ) ∧
    events w0 = from_env_reads.
Proof.
  destruct (validation_precedes_effects bare_host no_args (fresh sample_environ)
              (set_field F_api_key (PStr "generic-key")
                 (set_field F_endpoint (PStr "http://sdk")
                    (set_field F_environment (PStr "staging") default_config)))
              (after_reads (fresh sample_environ)))
    as (e & Hrun & Hclass & Hglobals & _ & Hevents).
  - reflexivity.
  - vm_compute. reflexivity.
  - right. reflexivity.
  - exists e, (after_reads (fresh sample_environ)). by split_and!.
Defined.

(** ** [shutdown] *)

Lemma shutdown_when_uninitialized X w :
  _initialized (globals w) = false → shutdown X w = (Ok tt, w).
Proof. intros H. unfold shutdown. rewrite bind_unfold. simpl. by rewrite H. Qed.

(** What [shutdown] does in the initialized state: it visits the owned
    providers in order and stops at the first whose flush raises; it
    resets the flag only when every flush returned; it never touches a
    handle. *)
Lemma shutdown_when_initialized X w r w' :
  _initialized (globals w) = true →
  shutdown X w = (r, w') →
  environ w' = environ w ∧
  (∀ s, handle_of s (globals w') = handle_of s (globals w)) ∧
  match r with
  | Ok _ =>
      events w' = events w ++ map (shutdown_event Returned) (owned (globals w)) ∧
      _initialized (globals w') = false
  | Raise e =>
      ∃ before failing after,
        owned (globals w) = before ++ failing :: after ∧
        events w' = events w ++ map (shutdown_event Returned) before
                             ++ [shutdown_event (Raised e) failing] ∧
        _initialized (globals w') = true
  end.
Proof.
  intros Hflag. unfold shutdown, shutdown_provider, owned, set_initialized.
  destruct w as [env [flag tp mp lp] evs]. simpl in Hflag. subst flag.
  unfold mbind, M_bind, get_globals, set_globals, with_globals, call, mret, M_ret,
    record_event. simpl.
  destruct tp as [tp|], mp as [mp|], lp as [lp|]; simpl;
    repeat match goal with
           | |- context [ext_raise ?X ?t ?o] => destruct (ext_raise X t o); simpl
           end;
    intros [= <- <-]; simpl;
    (split; [reflexivity |]); (split; [by intros [] |]);
    rewrite <- ?app_assoc, ?app_nil_r; simpl;
    first
      [ by split
      | by eexists [], _, _
      | by eexists [_], _, _
      | by eexists [_; _], _, _ ].
Qed.

Lemma shutdown_keeps_handles X w r w' :
  shutdown X w = (r, w') → ∀ s, handle_of s (globals w') = handle_of s (globals w).
Proof.
  destruct (_initialized (globals w)) eqn:Hflag.
  - intros H. by apply shutdown_when_initialized in H as (_ & ? & _).
  - rewrite shutdown_when_uninitialized by done. by intros [= _ <-].
Qed.

Lemma shutdown_ok_uninitialized X w w' :
  shutdown X w = (Ok tt, w') → _initialized (globals w') = false.
Proof.
  destruct (_initialized (globals w)) eqn:Hflag.
  - intros H. by apply shutdown_when_initialized in H as (_ & _ & _ & ?).
  - rewrite shutdown_when_uninitialized by done. by intros [= <-].
Qed.

(** ** What a successful [init] leaves behind *)

Lemma init_ok_summary X a w w' :
  _initialized (globals w) = false →
  init X a w = (Ok tt, w') →
  ∃ cfg,
    from_env X (build_overrides a) w = (Ok cfg, after_reads w) ∧
    _initialized (globals w') = true ∧
    (∀ s, if enabled s cfg
          then is_Some (handle_of s (globals w'))
          else handle_of s (globals w') = handle_of s (globals w)) ∧
    (enabled Logs cfg = true →
     ∃ h level, handle_of Logs (globals w') = Some h ∧
                log_level cfg = PStr level ∧
                ECall (LoggingHandler (handler_level X level) h) Returned ∈ events w').
Proof.
  intros Hflag H.
  apply init_ok_inv in H
    as (cfg & resource & w1 & w2 & w3 & w4 & w5 & w6 & Hcfg & _ & _ & Hres & Ht & Hm
        & Hl & Hs & Hd & ->); [| done].
  exists cfg. split; [done |]. split; [done |].
  assert (globals w1 = globals w) as G1.
  { by destruct (respects_call only_events only_events_event X _ _ _ _ Hres)
      as (_ & G & _). }
  apply init_traces_ok in Ht as (Tm & Tl & Tt).
  apply init_metrics_ok in Hm as (Mt & Ml & Mm).
  apply init_logs_ok in Hl as (Lt & Lm & Ll).
  apply init_system_metrics_only_events in Hs as (_ & G5 & P5).
  apply init_auto_instrumentation_only_events in Hd as (_ & G6 & P6).
  assert (∀ s, handle_of s (globals (mark_initialized cfg w6)) = handle_of s (globals w4))
    as Hend.
  { intros []; simpl; by rewrite G6, G5. }
  split.
  - intros s. rewrite Hend. destruct s; simpl in *.
    + rewrite Lt, Mt. destruct (truthy (enable_traces cfg)).
      * destruct Tt as (h & -> & _). eauto.
      * by rewrite Tt, G1.
    + rewrite Lm. destruct (truthy (enable_metrics cfg)).
      * destruct Mm as (h & reader & -> & _). eauto.
      * by rewrite Mm, Tm, G1.
    + destruct (truthy (enable_logs cfg)).
      * destruct Ll as (h & level & -> & _). eauto.
      * by rewrite Ll, Ml, Tl, G1.
  - intros Hlogs. rewrite Hlogs in Ll. destruct Ll as (h & level & Hh & _ & Hlevel & Hin).
    exists h, level. rewrite Hend. split_and!; [done | done |].
    simpl. apply elem_of_app. left.
    destruct P6 as [k6 ->]. apply elem_of_app. left.
    destruct P5 as [k5 ->]. apply elem_of_app. by left.
Qed.

(** ** The lifecycle record *)

(** C2, as the code has it.  A successful [init] of a process whose
    record is fully uninitialized leaves it fully initialized: flag true
    and handles exactly for the signals the resolved configuration enables.
    [shutdown] resets the flag and keeps every provider handle.  An [init]
    that raises leaves the flag as it was and drops no handle it has
    stored. *)
Theorem lifecycle_record_transitions X a w :
  (fully_uninitialized (globals w) →
   ∀ w', init X a w = (Ok tt, w') →
         ∃ cfg, from_env X (build_overrides a) w = (Ok cfg, after_reads w) ∧
                fully_initialized cfg (globals w')) ∧
  (∀ r w', shutdown X w = (r, w') →
           (∀ s, handle_of s (globals w') = handle_of s (globals w)) ∧
           (r = Ok tt → _initialized (globals w') = false)) ∧
  (∀ e w', init X a w = (Raise e, w') →
           _initialized (globals w') = _initialized (globals w) ∧
           ∀ s, is_Some (handle_of s (globals w)) → is_Some (handle_of s (globals w'))).
Proof.
  split_and!.
  - intros [Hflag Hnone] w' H.
    apply init_ok_summary in H as (cfg & Hcfg & Hflag' & Hhandles & _); [| done].
    exists cfg. split; [done |]. split; [done |].
    intros s. specialize (Hhandles s). rewrite Hnone in Hhandles.
    destruct (enabled s cfg).
    + by split.
    + rewrite Hhandles. split; [by intros [? [=]] | done].
  - intros r w' H. split.
    + by eapply shutdown_keeps_handles.
    + intros ->. by eapply shutdown_ok_uninitialized.
  - intros e w' H. by apply init_raise_keeps_handles in H as (_ & _ & ? & ?).
Qed.

Lemma lifecycle_record_transitions_witness :
  ∃ w',
    init bare_host mixed_args (fresh sample_environ) = (Ok tt, w') ∧
    ∃ cfg,
      from_env bare_host (build_overrides mixed_args) (fresh sample_environ)
      = (Ok cfg, after_reads (fresh sample_environ)) ∧
      fully_initialized cfg (globals w').
Proof.
  eexists. split; [vm_compute; reflexivity |].
  apply (proj1 (lifecycle_record_transitions bare_host mixed_args (fresh sample_environ))).
  - by split; [| intros []].
  - vm_compute. reflexivity.
Defined.

(** The record after [init] then [shutdown], and the record after an
    [init] that failed while building the metric exporter, are neither
    fully uninitialized nor fully initialized: the flag is false and
    provider handles remain. *)
Lemma lifecycle_invariant_broken :
  ¬ lifecycle_invariant
      (globals ((init bare_host minimal_args;; shutdown bare_host) (fresh ∅)).2) ∧
  ¬ lifecycle_invariant
      (globals (init failing_metric_exporter minimal_args (fresh ∅)).2).
Proof.
  split; intros [[_ Hnone] | [cfg [Hflag _]]].
  - specialize (Hnone Traces). vm_compute in Hnone. discriminate.
  - vm_compute in Hflag. discriminate.
  - specialize (Hnone Traces). vm_compute in Hnone. discriminate.
  - vm_compute in Hflag. discriminate.
Qed.

(** ** Failure of a provider during [shutdown] *)

(** C4, as the code has it.  In the initialized state [shutdown] flushes
    the owned providers in the order tracer, meter, logger.  When no flush
    raises, every owned provider is flushed and the flag is reset.  When
    one raises, the exception reaches the caller, the providers after it
    are not attempted and the flag stays set. *)
Theorem shutdown_stops_at_first_failure X w r w' :
  _initialized (globals w) = true →
  shutdown X w = (r, w') →
  match r with
  | Ok _ =>
      events w' = events w ++ map (shutdown_event Returned) (owned (globals w)) ∧
      _initialized (globals w') = false
  | Raise e =>
      ∃ before failing after,
        owned (globals w) = before ++ failing :: after ∧
        events w' = events w ++ map (shutdown_event Returned) before
                             ++ [shutdown_event (Raised e) failing] ∧
        _initialized (globals w') = true
  end.
Proof.
  intros Hflag H. by apply shutdown_when_initialized in H as (_ & _ & ?).
Qed.

Lemma shutdown_stops_at_first_failure_witness :
  ∃ w1 w2,
    init bare_host minimal_args (fresh ∅) = (Ok tt, w1) ∧
    shutdown bare_host w1 = (Ok tt, w2) ∧
    events w2 = events w1 ++ map (shutdown_event Returned) (owned (globals w1)) ∧
    _initialized (globals w2) = false.
Proof.
  eexists _, _. split; [vm_compute; reflexivity |].
  split; [vm_compute; reflexivity |].
  refine (shutdown_stops_at_first_failure bare_host _ (Ok tt) _ _ _).
  - reflexivity.
  - vm_compute. reflexivity.
Defined.

(** [init(api_key="k", service_name="svc")] builds the three providers;
    flushing the tracer provider then fails.  The meter and logger
    providers are never flushed and the flag stays set. *)
Lemma shutdown_abandons_later_providers :
  let X := failing_tracer_flush in
  let w := (init X minimal_args (fresh ∅)).2 in
  _initialized (globals w) = true ∧
  owned (globals w) = [(Traces, 10); (Metrics, 16); (Logs, 19)]%nat ∧
  shutdown_attempted Traces 10 (new_events w (shutdown X w).2) = true ∧
  shutdown_attempted Metrics 16 (new_events w (shutdown X w).2) = false ∧
  shutdown_attempted Logs 19 (new_events w (shutdown X w).2) = false ∧
  _initialized (globals (shutdown X w).2) = true ∧
  ¬ shutdown_isolates_failures X w.
Proof.
  split_and!; try (vm_compute; reflexivity).
  intros [_ Hflag]. vm_compute in Hflag. discriminate.
Qed.

(** ** [init] then [shutdown] *)

(** C7, as the code has it.  After a successful [init],
    [is_initialized()] is true; a [shutdown] call that then returns makes
    it false, and a further [shutdown] changes nothing.  A [shutdown] call
    in the uninitialized state returns at once and leaves the world as it
    is. *)
Theorem shutdown_resets_when_it_returns X a w w1 w2 :
  init X a w = (Ok tt, w1) →
  shutdown X w1 = (Ok tt, w2) →
  is_initialized w1 = (Ok true, w1) ∧
  is_initialized w2 = (Ok false, w2) ∧
  shutdown X w2 = (Ok tt, w2) ∧
  (∀ w0, _initialized (globals w0) = false → shutdown X w0 = (Ok tt, w0)).
Proof.
  intros Hinit H. apply init_ok_initialized in Hinit.
  apply shutdown_ok_uninitialized in H. split_and!.
  - unfold is_initialized. rewrite bind_unfold. simpl. by rewrite Hinit.
  - unfold is_initialized. rewrite bind_unfold. simpl. by rewrite H.
  - by apply shutdown_when_uninitialized.
  - intros w0. apply shutdown_when_uninitialized.
Qed.

Lemma shutdown_resets_when_it_returns_witness :
  ∃ w1 w2,
    init bare_host minimal_args (fresh ∅) = (Ok tt, w1) ∧
    shutdown bare_host w1 = (Ok tt, w2) ∧
    is_initialized w2 = (Ok false, w2) ∧
    shutdown bare_host w2 = (Ok tt, w2).
Proof.
  eexists _, _. split; [vm_compute; reflexivity |].
  split; [vm_compute; reflexivity |].
  destruct (shutdown_resets_when_it_returns bare_host minimal_args (fresh ∅) _ _
              ltac:(vm_compute; reflexivity) ltac:(vm_compute; reflexivity))
    as (_ & Hquery & Hagain & _).
  by split.
Defined.

(** [init] succeeds, the flush of the tracer provider raises inside
    [shutdown], and [is_initialized()] still answers [True]. *)
Lemma shutdown_failure_leaves_flag_set :
  let X := failing_tracer_flush in
  (init X minimal_args (fresh ∅)).1 = Ok tt ∧
  (shutdown X (init X minimal_args (fresh ∅)).2).1
    = Raise (mkExn RuntimeError "flush failed") ∧
  (is_initialized (shutdown X (init X minimal_args (fresh ∅)).2).2).1 = Ok true ∧
  ¬ shutdown_resets_flag X (init X minimal_args (fresh ∅)).2.
Proof.
  split_and!; try (vm_compute; reflexivity).
  intros H. vm_compute in H. discriminate.
Qed.

(** * Discovery *)

Lemma join_items_raises l : ∀ i e,
  join_items i l = Raise e → exn_class e = TypeError.
Proof.
  induction l as [|v l IH]; intros i e; simpl; [done |].
  destruct v; try (by intros [= <-]).
  destruct (join_items (S i) l) eqn:Hrest; [done |].
  intros [= <-]. by eapply IH.
Qed.

Lemma str_join_raises sep v e :
  str_join sep v = Raise e → isinstance e Exception = true.
Proof.
  assert (exn_class e = TypeError → isinstance e Exception = true) as Hclass.
  { intros H. unfold isinstance. by rewrite H. }
  destruct v; simpl; try (by intros [= <-]).
  destruct (join_items 0 _) eqn:Hitems; [done |].
  intros [= <-]. apply Hclass. by eapply join_items_raises.
Qed.

(** What leaves the body of the last [try] derives from [Exception] when
    the adapters fail cleanly. *)
Lemma apply_instrumentor_raises X excluded lib_name cls instrumented w e w1 :
  adapters_fail_cleanly X →
  apply_instrumentor X excluded lib_name cls instrumented w = (Raise e, w1) →
  isinstance e Exception = true.
Proof.
  intros [Hadapter _].
  unfold apply_instrumentor, mbind, M_bind, call, call_bool, mret, M_ret, raise.
  simpl.
  destruct (str_join "," excluded) as [joined|e0] eqn:Hjoin;
    [| apply str_join_raises in Hjoin];
    repeat case_head; intros [= <- <-]; try done;
    by (eapply Hadapter; [| eassumption]).
Qed.

(** The last [try] of the loop body: an exception that derives from
    [Exception] and whose text can be had is logged, and the list of
    instrumented libraries is as before. *)
Lemma instrument_it_catches X excluded lib_name cls instrumented w e w1 :
  apply_instrumentor X excluded lib_name cls instrumented w = (Raise e, w1) →
  isinstance e Exception = true →
  ext_raise X (events w1) (exception_str e) = None →
  instrument_it X excluded lib_name cls instrumented w =
  (Ok instrumented,
   record_event (ELog instruments_logger logging_WARNING
                   (failed_to_instrument lib_name e))
     (record_event (ECall (exception_str e) Returned) w1)).
Proof.
  intros H Hclass Hstr. unfold instrument_it, try_except. rewrite H, Hclass.
  unfold mbind, M_bind, call. by rewrite Hstr.
Qed.

Lemma instrument_it_returns X excluded lib_name cls instrumented w :
  adapters_fail_cleanly X →
  ∃ instrumented' w',
    instrument_it X excluded lib_name cls instrumented w = (Ok instrumented', w').
Proof.
  intros Hclean.
  destruct (apply_instrumentor X excluded lib_name cls instrumented w)
    as [[instrumented'|e] w1] eqn:H.
  - exists instrumented', w1. unfold instrument_it, try_except. by rewrite H.
  - eexists _, _. apply instrument_it_catches; [done | | apply Hclean].
    by eapply apply_instrumentor_raises.
Qed.

Lemma probe_instrumentor_returns X lib_name module_path class_name w :
  (∀ tr e, ext_raise X tr (import_module module_path) = Some e →
           isinstance e ImportError || isinstance e AttributeError = true) →
  (∀ tr module e, ext_raise X tr (getattr_ module class_name) = Some e →
           isinstance e ImportError || isinstance e AttributeError = true) →
  ∃ found w', probe_instrumentor X lib_name module_path class_name w = (Ok found, w').
Proof.
  intros Himport Hgetattr.
  unfold probe_instrumentor, try_except, mbind, M_bind, call, log, emit, mret, M_ret.
  destruct (ext_raise X (events w) (import_module module_path)) as [e|] eqn:E1.
  { rewrite (Himport _ _ E1). eauto. }
  match goal with
  | |- context [ext_raise X ?t ?o] => destruct (ext_raise X t o) as [e|] eqn:E2
  end.
  { rewrite (Hgetattr _ _ _ E2). eauto. }
  eauto.
Qed.

(** The loop body returns for such an entry, and its first event is the
    probe of the target library. *)
Lemma instrument_entry_returns X excluded instrumented entry w :
  adapters_fail_cleanly X →
  entry_fails_cleanly X entry →
  ∃ instrumented' w' out rest,
    instrument_entry X excluded instrumented entry w = (Ok instrumented', w') ∧
    events w' = events w ++ ECall (import_module entry.1) out :: rest.
Proof.
  destruct entry as [lib_name path].
  intros Hclean (Hlib & module_path & class_name & Hsplit & Himport & Hgetattr).
  simpl in *. unfold instrument_entry. rewrite Hsplit.
  rewrite bind_unfold. unfold probe_library, try_except.
  rewrite bind_unfold. unfold call at 1.
  destruct (ext_raise X (events w) (import_module lib_name)) as [e|] eqn:E.
  - rewrite (Hlib _ _ E). simpl. eexists _, _, _, []. by split.
  - simpl.
    set (w1 := record_event (ECall (import_module lib_name) Returned) w).
    destruct (probe_instrumentor_returns X lib_name module_path class_name w1
                Himport Hgetattr) as (found & w2 & Hfound).
    rewrite bind_unfold, Hfound.
    destruct (probe_instrumentor_only_events _ _ _ _ _ _ _ Hfound) as (_ & _ & [k2 P2]).
    destruct found as [cls|].
    + destruct (instrument_it_returns X excluded lib_name cls instrumented w2 Hclean)
        as (instrumented' & w3 & Hit).
      destruct (instrument_it_only_events _ _ _ _ _ _ _ _ Hit) as (_ & _ & [k3 P3]).
      exists instrumented', w3, Returned, (k2 ++ k3). split; [done |].
      rewrite P3, P2. simpl. by rewrite <- !app_assoc.
    + exists instrumented, w2, Returned, k2. split; [done |].
      rewrite P2. simpl. by rewrite <- app_assoc.
Qed.

Lemma library_probed_app lib evs1 evs2 :
  library_probed lib (evs1 ++ evs2) =
  library_probed lib evs1 || library_probed lib evs2.
Proof. apply existsb_app. Qed.

Lemma discovery_loop_returns X excluded table :
  adapters_fail_cleanly X →
  Forall (entry_fails_cleanly X) table →
  ∀ instrumented w,
  ∃ instrumented' w' evs,
    for_each (instrument_entry X excluded) instrumented table w = (Ok instrumented', w') ∧
    events w' = events w ++ evs ∧
    ∀ lib, lib ∈ table.*1 → library_probed lib evs = true.
Proof.
  intros Hclean.
  induction 1 as [|entry table Hentry _ IH]; intros instrumented w.
  - exists instrumented, w, []. split_and!; [done | by rewrite app_nil_r |].
    by intros lib ?%elem_of_nil.
  - destruct (instrument_entry_returns X excluded instrumented entry w Hclean Hentry)
      as (instrumented1 & w1 & out & rest & Hrun & Hevents).
    destruct (IH instrumented1 w1) as (instrumented' & w' & evs & Hloop & Hevs & Hall).
    exists instrumented', w', (ECall (import_module entry.1) out :: rest ++ evs).
    split_and!.
    + simpl. by rewrite bind_unfold, Hrun.
    + rewrite Hevs, Hevents. by rewrite <- app_assoc.
    + intros lib [-> | Hin]%elem_of_cons.
      * simpl. by rewrite String.eqb_refl.
      * change (library_probed lib
                  ([ECall (import_module entry.1) out] ++ rest ++ evs) = true).
        rewrite !library_probed_app, (Hall _ Hin). by rewrite !orb_true_r.
Qed.

Lemma table_fails_cleanly X :
  probes_fail_cleanly X → Forall (entry_fails_cleanly X) INSTRUMENTORS.
Proof.
  intros (Hlib & Hmodule & Hgetattr).
  apply Forall_forall. intros [lib path] Hin. split.
  - intros tr e. apply Hlib. apply list_elem_of_fmap. by exists (lib, path).
  - assert (∃ module_path class_name,
              rsplit1 ":" path = Some (module_path, class_name) ∧
              module_path ∈ adapter_modules) as (m & c & Hsplit & Hm).
    { unfold INSTRUMENTORS in Hin.
      repeat (apply elem_of_cons in Hin as [[= -> ->] | Hin];
              [eexists _, _; split; [vm_compute; reflexivity |];
               vm_compute; by repeat constructor |]).
      by apply elem_of_nil in Hin. }
    exists m, c. split_and!; [done | |].
    + intros tr e. by apply Hmodule.
    + intros tr module e. apply Hgetattr.
Qed.

Lemma new_events_app w w' evs : events w' = events w ++ evs → new_events w w' = evs.
Proof. intros H. unfold new_events. rewrite H. apply drop_app_length. Qed.


Lemma failing_adapter_host_probes : probes_fail_cleanly failing_adapter_host.
Proof.
  split_and!.
  - intros tr lib e Hin H. unfold INSTRUMENTORS in Hin.
    repeat (apply elem_of_cons in Hin as [-> | Hin];
            [vm_compute in H; by (discriminate H || injection H as <-) |]).
    by apply elem_of_nil in Hin.
  - intros tr module e Hin H. vm_compute in Hin.
    repeat (apply elem_of_cons in Hin as [-> | Hin];
            [vm_compute in H; by (discriminate H || injection H as <-) |]).
    by apply elem_of_nil in Hin.
  - intros tr module name e H. discriminate H.
Qed.

Lemma failing_adapter_host_adapters : adapters_fail_cleanly failing_adapter_host.
Proof.
  split; [| done]. intros tr op e Hop H.
  destruct op; try discriminate Hop; simpl in H; try discriminate H.
  destruct instrumentor as [|[|[|[|n]]]]; simpl in H; try discriminate H.
  by injection H as <-.
Qed.



(** An adapter that ends the interpreter: [SystemExit] does not derive from
    [Exception], so it passes the last handler and leaves
    [auto_instrument]; no warning is logged and [requests] is never
    probed. *)
Example adapter_exit_leaves_discovery :
  let run := auto_instrument exiting_adapter_host (PList []) (fresh ∅) in
  run.1 = Raise (mkExn SystemExit "1") ∧
  count_events (λ ev, match ev with ELog _ _ _ => true | _ => false end)
    (events run.2) = 0%nat ∧
  library_probed "requests" (events run.2) = false.
Proof. split_and!; vm_compute; reflexivity. Qed.

(** An exception whose [__str__] raises: the handler catches it, and what
    [__str__] raised leaves [auto_instrument] from inside the handler. *)
Example unprintable_failure_leaves_discovery :
  let run := auto_instrument unprintable_failure_host (PList []) (fresh ∅) in
  run.1 = Raise (mkExn TypeError "__str__ returned non-string") ∧
  ECall (instrument 3 []) (Raised (mkExn RuntimeError "cannot patch flask"))
    ∈ events run.2 ∧
  library_probed "requests" (events run.2) = false.
Proof. split_and!; try (vm_compute; reflexivity). vm_compute. by repeat constructor. Qed.

(** A string is joined character by character, not byte by byte. *)
Example str_join_of_a_string :
  str_join "," (PStr "añb") = Ok "a,ñ,b".
Proof. reflexivity. Qed.

(** * The host metrics callbacks *)



(** A probe interrupted from the keyboard: the interrupt leaves the
    callback. *)
Example interrupt_leaves_callback :
  (run_callback interrupted_probe_host cpu_callback (fresh ∅)).1
  = Raise (mkExn KeyboardInterrupt "").
Proof. vm_compute. reflexivity. Qed.

(** * The level of the logging bridge *)

Lemma handler_level_unknown X level :
  upper X level ∉ level_names → handler_level X level = logging_INFO.
Proof.
  intros H. unfold handler_level, log_levels, levels_get.
  repeat match goal with
         | |- context [String.eqb ?k (upper X level)] =>
             destruct (String.eqb_spec k (upper X level)) as [Heq | _];
             [exfalso; apply H; rewrite <- Heq; unfold level_names;
              by repeat constructor |]
         end.
  reflexivity.
Qed.

(** Upper-casing a character gives the capital [d] exactly when the
    character is [d] in either case. *)
Lemma ascii_upper_capital c d :
  is_capital d = true →
  Ascii.eqb d (ascii_upper c) = same_letter c d.
Proof.
  unfold same_letter, is_capital, ascii_upper. cbv zeta.
  intros Hd. rewrite Hd. apply andb_true_iff in Hd as [Hlo Hhi].
  apply Nat.leb_le in Hlo. apply Nat.leb_le in Hhi.
  pose proof (nat_ascii_bounded c) as Hc.
  assert (∀ n, (n < 256)%nat → nat_of_ascii c = n → c = ascii_of_nat n) as Hback.
  { intros n _ <-. by rewrite ascii_nat_embedding. }
  destruct (Nat.leb_spec 97 (nat_of_ascii c)) as [H97|H97];
    destruct (Nat.leb_spec (nat_of_ascii c) 122) as [H122|H122];
    destruct (Nat.leb_spec 65 (nat_of_ascii c)) as [H65|H65];
    destruct (Nat.leb_spec (nat_of_ascii c) 90) as [H90|H90];
    try lia; simpl;
    destruct (Nat.eqb_spec (nat_of_ascii c) (nat_of_ascii d + 32)) as [Hl|Hl];
    destruct (Nat.eqb_spec (nat_of_ascii d) (nat_of_ascii c + 32)) as [Hu|Hu];
    try lia; simpl; rewrite ?orb_true_r, ?orb_false_r.
  all: try (rewrite Ascii.eqb_sym; reflexivity).
  all: try (replace (nat_of_ascii c - 32)%nat with (nat_of_ascii d) by lia;
            rewrite ascii_nat_embedding; apply Ascii.eqb_refl).
  all: try (transitivity false; [| symmetry]; apply Ascii.eqb_neq; intros Heq;
            apply (f_equal nat_of_ascii) in Heq;
            rewrite ?nat_ascii_embedding in Heq by lia; lia).
Qed.

Lemma upper_ascii_capital name : ∀ level,
  all_capital name = true →
  String.eqb name (upper_ascii level) = same_ignoring_case level name.
Proof.
  induction name as [|d name IH]; intros [|c level]; simpl; try done.
  intros [Hd Hname]%andb_true_iff.
  by rewrite (ascii_upper_capital c d Hd), (IH level Hname).
Qed.

(** On ASCII text the level of the handler is the level of the name the
    text spells, the case of its letters apart. *)
Lemma handler_level_ascii X level :
  isascii level = true → handler_level X level = level_by_name level.
Proof.
  intros Hascii. unfold handler_level, upper, level_by_name, log_levels, levels_get.
  rewrite Hascii. by rewrite !upper_ascii_capital.
Qed.

(** C10.  When [init] installs the bridge handler (logs enabled,
    [log_level] a string), the level of the handler is the one the table
    gives to the upper-cased [log_level].  It is [logging.INFO] whenever the
    upper-cased form is none of DEBUG, INFO, WARNING, ERROR.  The names are
    matched without regard to case: for a [log_level] in ASCII the level is
    that of DEBUG, INFO, WARNING or ERROR when [log_level] spells one of
    them in any mixture of cases, and [logging.INFO] when it spells
    none. *)
Theorem unknown_log_level_means_info X a w w' cfg level :
  _initialized (globals w) = false →
  init X a w = (Ok tt, w') →
  from_env X (build_overrides a) w = (Ok cfg, after_reads w) →
  enabled Logs cfg = true →
  log_level cfg = PStr level →
  ∃ h levelno,
    handle_of Logs (globals w') = Some h ∧
    ECall (LoggingHandler levelno h) Returned ∈ events w' ∧
    (upper X level ∉ level_names → levelno = logging_INFO) ∧
    (isascii level = true → levelno = level_by_name level).
Proof.
  intros Hflag Hinit Hcfg Hlogs Hlevel.
  apply init_ok_summary in Hinit as (cfg' & Hcfg' & _ & _ & Hhandler); [| done].
  rewrite Hcfg in Hcfg'. injection Hcfg' as <-.
  destruct (Hhandler Hlogs) as (h & level' & Hh & Hlevel' & Hin).
  rewrite Hlevel in Hlevel'. injection Hlevel' as <-.
  exists h, (handler_level X level). split_and!; [done | done | |].
  - apply handler_level_unknown.
  - apply handler_level_ascii.
Qed.

Lemma unknown_log_level_means_info_witness :
  (∃ w' h,
     init bare_host verbose_args (fresh ∅) = (Ok tt, w') ∧
     handle_of Logs (globals w') = Some h ∧
     ECall (LoggingHandler logging_INFO h) Returned ∈ events w') ∧
  (∃ w' h,
     init bare_host warning_args (fresh ∅) = (Ok tt, w') ∧
     handle_of Logs (globals w') = Some h ∧
     ECall (LoggingHandler logging_WARNING h) Returned ∈ events w').
Proof.
  split.
  - destruct (unknown_log_level_means_info bare_host verbose_args (fresh ∅)
                (init bare_host verbose_args (fresh ∅)).2
                (set_field F_log_level (PStr "verbose")
                   (set_field F_service_name (PStr "svc")
                      (set_field F_api_key (PStr "k") default_config))) "verbose"
                eq_refl ltac:(vm_compute; reflexivity) ltac:(vm_compute; reflexivity)
                eq_refl eq_refl)
      as (h & levelno & Hh & Hin & Hunknown & _).
    eexists _, h. split; [vm_compute; reflexivity |]. split; [exact Hh |].
    rewrite <- Hunknown; [exact Hin |].
    vm_compute. intros H.
    repeat (apply elem_of_cons in H as [[=] | H]). by apply elem_of_nil in H.
  - destruct (unknown_log_level_means_info bare_host warning_args (fresh ∅)
                (init bare_host warning_args (fresh ∅)).2
                (set_field F_log_level (PStr "Warning")
                   (set_field F_service_name (PStr "svc")
                      (set_field F_api_key (PStr "k") default_config))) "Warning"
                eq_refl ltac:(vm_compute; reflexivity) ltac:(vm_compute; reflexivity)
                eq_refl eq_refl)
      as (h & levelno & Hh & Hin & _ & Hascii).
    eexists _, h. split; [vm_compute; reflexivity |]. split; [exact Hh |].
    rewrite (Hascii eq_refl) in Hin. exact Hin.
Defined.

(** A level name outside ASCII: the upper-case form of the dotless i is
    I, so [log_level="warnıng"] selects WARNING, although no change of
    case of ASCII letters turns it into a level name. *)
Example dotless_level_scenario :
  upper unicode_host "warnıng" = "WARNING" ∧
  level_by_name "warnıng" = logging_INFO ∧
  ECall (LoggingHandler logging_WARNING 19) Returned
    ∈ events (init unicode_host dotless_args (fresh ∅)).2.
Proof. split_and!; try reflexivity. vm_compute. by repeat constructor. Qed.

(** * The scenario of the specification *)

(** [init(credential="k", service_name="svc")] with no environment
    variable set: the endpoint, the environment and the export interval
    take their defaults, [is_initialized()] is true, and after [shutdown()]
    it is false. *)
Example default_scenario :
  ∃ cfg w0 w1 w2,
    from_env bare_host (build_overrides minimal_args) (fresh ∅) = (Ok cfg, w0) ∧
    endpoint cfg = PStr "http://localhost:8080" ∧
    environment cfg = PStr "local" ∧
    export_interval_ms cfg = PInt 10000 ∧
    init bare_host minimal_args (fresh ∅) = (Ok tt, w1) ∧
    is_initialized w1 = (Ok true, w1) ∧
    shutdown bare_host w1 = (Ok tt, w2) ∧
    is_initialized w2 = (Ok false, w2).
Proof.
  eexists _, _, _, _.
  split; [vm_compute; reflexivity |].
  split; [reflexivity |]. split; [reflexivity |]. split; [reflexivity |].
  split; [vm_compute; reflexivity |].
  split; [reflexivity |].
  split; [vm_compute; reflexivity |].
  reflexivity.
Qed.

(** * What each part of the SDK emits *)

#[global] Instance emitting_preorder P : PreOrder (emitting P).
Proof.
  split.
  - intros w. split; [done |]. exists []. by rewrite app_nil_r.
  - intros w1 w2 w3 (E1 & evs1 & H1 & P1) (E2 & evs2 & H2 & P2).
    split; [congruence |]. exists (evs1 ++ evs2). split.
    + by rewrite H2, H1, app_assoc.
    + by rewrite forallb_app, P1, P2.
Qed.

#[global] Instance emitting_keeping_preorder P s : PreOrder (emitting_keeping P s).
Proof.
  split.
  - intros w. split; reflexivity.
  - intros w1 w2 w3 [E1 K1] [E2 K2]. split; [etrans; eassumption | congruence].
Qed.

Lemma emitting_event P ev w : P ev = true → emitting P w (record_event ev w).
Proof. intros H. split; [done |]. exists [ev]. simpl. by rewrite H. Qed.

Lemma emitting_new_events P w w' :
  emitting P w w' → forallb P (new_events w w') = true.
Proof. intros (_ & evs & H & HP). by rewrite (new_events_app _ _ _ H). Qed.

Section Emitting.

Context (P : Event → bool) (s : Signal).

Lemma emitting_call X op :
  (∀ out, P (ECall op out) = true) → respects (emitting P) (call X op).
Proof.
  intros H w r w'. unfold call.
  destruct (ext_raise X (events w) op); intros [= _ <-]; by apply emitting_event.
Qed.

Lemma emitting_call_bool X op :
  (∀ out, P (ECall op out) = true) → respects (emitting P) (call_bool X op).
Proof.
  intros H w r w'. unfold call_bool.
  destruct (ext_raise X (events w) op); intros [= _ <-]; by apply emitting_event.
Qed.

Lemma emitting_call_percent X op :
  (∀ out, P (ECall op out) = true) → respects (emitting P) (call_percent X op).
Proof.
  intros H w r w'. unfold call_percent.
  destruct (ext_raise X (events w) op); intros [= _ <-]; by apply emitting_event.
Qed.

Lemma emitting_emit ev : P ev = true → respects (emitting P) (emit ev).
Proof. intros H w r w' [= _ <-]. by apply emitting_event. Qed.

Lemma emitting_set_globals g : respects (emitting P) (set_globals g).
Proof. intros w r w' [= _ <-]. split; [done |]. exists []. by rewrite app_nil_r. Qed.

Lemma keeping_call X op :
  (∀ out, P (ECall op out) = true) → respects (emitting_keeping P s) (call X op).
Proof.
  intros H w r w' Hrun. split; [by eapply emitting_call |].
  by destruct (respects_call only_events only_events_event X op _ _ _ Hrun)
    as (_ & -> & _).
Qed.

Lemma keeping_call_bool X op :
  (∀ out, P (ECall op out) = true) → respects (emitting_keeping P s) (call_bool X op).
Proof.
  intros H w r w' Hrun. split; [by eapply emitting_call_bool |].
  by destruct (respects_call_bool only_events only_events_event X op _ _ _ Hrun)
    as (_ & -> & _).
Qed.

Lemma keeping_emit ev : P ev = true → respects (emitting_keeping P s) (emit ev).
Proof. intros H w r w' [= _ <-]. split; [by apply emitting_event | done]. Qed.

Lemma keeping_set_tracer h :
  s ≠ Traces → respects (emitting_keeping P s) (set_tracer_provider_global h).
Proof.
  intros Hs w r w' [= _ <-]. split; [| by destruct s].
  split; [done |]. exists []. by rewrite app_nil_r.
Qed.

Lemma keeping_set_meter h :
  s ≠ Metrics → respects (emitting_keeping P s) (set_meter_provider_global h).
Proof.
  intros Hs w r w' [= _ <-]. split; [| by destruct s].
  split; [done |]. exists []. by rewrite app_nil_r.
Qed.

Lemma keeping_set_logger h :
  s ≠ Logs → respects (emitting_keeping P s) (set_logger_provider_global h).
Proof.
  intros Hs w r w' [= _ <-]. split; [| by destruct s].
  split; [done |]. exists []. by rewrite app_nil_r.
Qed.

End Emitting.

(** Discharges [respects R m] for the relations above: the shape of [m]
    is followed down to the calls, each of which must pass the filter by
    computation. *)
Ltac emitting_leaf :=
  first
    [ apply respects_ret; exact _
    | apply respects_raise; exact _
    | apply respects_get_globals; exact _
    | apply emitting_call; intros []; reflexivity
    | apply emitting_call_bool; intros []; reflexivity
    | apply emitting_call_percent; intros []; reflexivity
    | apply emitting_emit; reflexivity
    | apply emitting_set_globals
    | apply keeping_call; intros []; reflexivity
    | apply keeping_call_bool; intros []; reflexivity
    | apply keeping_emit; reflexivity
    | apply keeping_set_tracer; discriminate
    | apply keeping_set_meter; discriminate
    | apply keeping_set_logger; discriminate ].

Ltac emitting_step :=
  match goal with
  | |- PreOrder _ => exact _
  | |- respects _ (mbind _ _) => apply respects_bind
  | |- respects _ (try_except _ _ _) => apply respects_try_except
  | |- respects _ (for_each _ _ _) => apply respects_for_each
  | |- respects _ (match ?x with _ => _ end) => destruct x
  | |- ∀ _, _ => intros ?
  | |- respects _ _ => emitting_leaf
  | |- respects _ _ =>
      progress unfold log, set_initialized, set_tracer_provider_global,
        set_meter_provider_global, set_logger_provider_global,
        init_traces, init_metrics, init_logs,
        init_system_metrics, init_auto_instrumentation, auto_instrument,
        auto_instrument_over, instrument_entry, probe_library, probe_instrumentor,
        instrument_it, apply_instrumentor, start_system_metrics, shutdown,
        shutdown_provider, run_callback, _cpu_callback, _memory_callback,
        _disk_callback
  end.

Ltac emitting_tac := repeat emitting_step.

(** ** [init] stage by stage *)

(** Whatever [init] does in the uninitialized state, it does stage by
    stage: the world it reaches before it marks itself initialized is
    related to the first by any relation the stages respect. *)
Lemma init_stagewise (R : relation World) `{!PreOrder R} X a w r w' :
  _initialized (globals w) = false →
  R w (after_reads w) →
  (∀ cfg w0, from_env X (build_overrides a) w = (Ok cfg, w0) →
             stages_respect R X cfg) →
  init X a w = (r, w') →
  ∃ w6, R w w6 ∧
        match r with
        | Raise _ => w' = w6
        | Ok _ => ∃ cfg, from_env X (build_overrides a) w = (Ok cfg, after_reads w) ∧
                         w' = mark_initialized cfg w6
        end.
Proof.
  intros Hflag Hreads Hstages.
  rewrite init_when_uninitialized by done. rewrite bind_unfold.
  destruct (from_env X (build_overrides a) w) as [[cfg|e] w0] eqn:Hcfg;
    pose proof (from_env_world _ _ _ _ _ Hcfg) as ->.
  2: { intros [= <- <-]. by exists (after_reads w). }
  destruct (Hstages _ _ eq_refl) as (Sres & St & Sm & Sl & Ss & Sd).
  destruct (truthy (api_key cfg)); simpl;
    [| intros [= <- <-]; by exists (after_reads w)].
  destruct (truthy (service_name cfg)); simpl;
    [| intros [= <- <-]; by exists (after_reads w)].
  rewrite bind_unfold.
  destruct (call X _ (after_reads w)) as [[resource|e] w1] eqn:H1;
    pose proof (Sres _ _ _ H1) as R1.
  2: { intros [= <- <-]. exists w1. split; [by etrans |done]. }
  rewrite bind_unfold.
  destruct (init_traces X cfg resource _ w1) as [[[]|e] w2] eqn:H2;
    pose proof (St _ _ _ _ H2) as R2.
  2: { intros [= <- <-]. exists w2. split; [by repeat (etrans; [eassumption |]) | done]. }
  rewrite bind_unfold.
  destruct (init_metrics X cfg resource _ w2) as [[[]|e] w3] eqn:H3;
    pose proof (Sm _ _ _ _ H3) as R3.
  2: { intros [= <- <-]. exists w3. split; [by repeat (etrans; [eassumption |]) | done]. }
  rewrite bind_unfold.
  destruct (init_logs X cfg resource _ w3) as [[[]|e] w4] eqn:H4;
    pose proof (Sl _ _ _ _ H4) as R4.
  2: { intros [= <- <-]. exists w4. split; [by repeat (etrans; [eassumption |]) | done]. }
  rewrite bind_unfold.
  destruct (init_system_metrics X cfg w4) as [[[]|e] w5] eqn:H5;
    pose proof (Ss _ _ _ H5) as R5.
  2: { intros [= <- <-]. exists w5. split; [by repeat (etrans; [eassumption |]) | done]. }
  rewrite bind_unfold.
  destruct (init_auto_instrumentation X cfg w5) as [[[]|e] w6] eqn:H6;
    pose proof (Sd _ _ _ H6) as R6.
  2: { intros [= <- <-]. exists w6. split; [by repeat (etrans; [eassumption |]) | done]. }
  intros [= <- <-]. exists w6. split; [by repeat (etrans; [eassumption |]) |].
  exists cfg. split; [done |].
  unfold mark_initialized, record_event, with_globals. simpl.
  by rewrite <- app_assoc.
Qed.

Lemma new_events_refl w : new_events w w = [].
Proof. unfold new_events. apply drop_all. Qed.

Lemma count_events_app P evs1 evs2 :
  count_events P (evs1 ++ evs2) = (count_events P evs1 + count_events P evs2)%nat.
Proof. unfold count_events. by rewrite List.filter_app, length_app. Qed.

Lemma count_events_none P evs :
  forallb (λ ev, negb (P ev)) evs = true → count_events P evs = 0%nat.
Proof.
  unfold count_events. induction evs as [|ev evs IH]; simpl; [done |].
  intros [Hev Hevs]%andb_true_iff. destruct (P ev); [done | auto].
Qed.

Lemma emitting_after_reads P w :
  forallb P from_env_reads = true → emitting P w (after_reads w).
Proof. intros H. split; [done |]. by exists from_env_reads. Qed.

Lemma emitting_mark_initialized P cfg w :
  P EAtexit_register_shutdown = true →
  P (ELog "optic" logging_INFO (initialized_message cfg)) = true →
  emitting P w (mark_initialized cfg w).
Proof.
  intros H1 H2. split; [done |]. eexists. split; [reflexivity |].
  simpl. by rewrite H1, H2.
Qed.

(** ** The gates of [init] *)

(** X4.  A signal the resolved configuration disables is left alone: [init]
    builds no exporter, processor or provider for it and does not touch
    its handle, however the call ends. *)
Theorem disabled_signal_is_left_alone X a w r w' cfg w0 s :
  init X a w = (r, w') →
  from_env X (build_overrides a) w = (Ok cfg, w0) →
  enabled s cfg = false →
  forallb (not_from (SignalSetup s)) (new_events w w') = true ∧
  handle_of s (globals w') = handle_of s (globals w).
Proof.
  intros Hinit Hcfg Hoff.
  destruct (_initialized (globals w)) eqn:Hflag.
  { rewrite init_when_initialized in Hinit by done. injection Hinit as _ <-.
    by rewrite new_events_refl. }
  cut (emitting_keeping (not_from (SignalSetup s)) s w w').
  { intros [He Hk]. split; [by apply emitting_new_events | done]. }
  eapply (init_stagewise (emitting_keeping (not_from (SignalSetup s)) s))
    in Hinit as (w6 & R6 & Hend); [| done | |].
  - destruct r as [[]|e]; [| by subst].
    destruct Hend as (cfg' & _ & ->). etrans; [exact R6 |].
    split; [| by destruct s]. by apply emitting_mark_initialized.
  - split; [| done]. by apply emitting_after_reads; destruct s.
  - intros cfg' w0' Hcfg'. rewrite Hcfg in Hcfg'. injection Hcfg' as <- _.
    unfold stages_respect, init_traces, init_metrics, init_logs.
    destruct s; simpl in Hoff; rewrite Hoff; split_and!; emitting_tac.
Qed.

Lemma disabled_signal_is_left_alone_witness :
  ∃ w',
    init bare_host no_traces_args (fresh ∅) = (Ok tt, w') ∧
    forallb (not_from (SignalSetup Traces)) (new_events (fresh ∅) w') = true ∧
    handle_of Traces (globals w') = None.
Proof.
  eexists. split; [vm_compute; reflexivity |].
  apply (disabled_signal_is_left_alone bare_host no_traces_args (fresh ∅) (Ok tt) _
           (set_field F_enable_traces (PBool false)
              (set_field F_service_name (PStr "svc")
                 (set_field F_api_key (PStr "k") default_config)))
           (after_reads (fresh ∅)) Traces);
    vm_compute; reflexivity.
Defined.

(** X5.  The sampler is started only when both [enable_system_metrics] and
    [enable_metrics] are truthy: otherwise [init] imports no [psutil],
    asks for no meter and registers no gauge. *)
Theorem sampler_needs_both_flags X a w r w' cfg w0 :
  init X a w = (r, w') →
  from_env X (build_overrides a) w = (Ok cfg, w0) →
  truthy (enable_system_metrics cfg) && truthy (enable_metrics cfg) = false →
  forallb (not_from Sampler) (new_events w w') = true.
Proof.
  intros Hinit Hcfg Hoff.
  destruct (_initialized (globals w)) eqn:Hflag.
  { rewrite init_when_initialized in Hinit by done. injection Hinit as _ <-.
    by rewrite new_events_refl. }
  apply emitting_new_events.
  eapply (init_stagewise (emitting (not_from Sampler)))
    in Hinit as (w6 & R6 & Hend); [| done | |].
  - destruct r as [[]|e]; [| by subst].
    destruct Hend as (cfg' & _ & ->). etrans; [exact R6 |].
    by apply emitting_mark_initialized.
  - by apply emitting_after_reads.
  - intros cfg' w0' Hcfg'. rewrite Hcfg in Hcfg'. injection Hcfg' as <- _.
    unfold stages_respect, init_system_metrics. rewrite Hoff.
    split_and!; emitting_tac.
Qed.

(** X6.  Discovery runs only when [auto_instrument] is truthy: otherwise
    [init] imports no library and touches no adapter. *)
Theorem discovery_needs_its_flag X a w r w' cfg w0 :
  init X a w = (r, w') →
  from_env X (build_overrides a) w = (Ok cfg, w0) →
  truthy (auto_instrument_ cfg) = false →
  forallb (not_from Discovery) (new_events w w') = true.
Proof.
  intros Hinit Hcfg Hoff.
  destruct (_initialized (globals w)) eqn:Hflag.
  { rewrite init_when_initialized in Hinit by done. injection Hinit as _ <-.
    by rewrite new_events_refl. }
  apply emitting_new_events.
  eapply (init_stagewise (emitting (not_from Discovery)))
    in Hinit as (w6 & R6 & Hend); [| done | |].
  - destruct r as [[]|e]; [| by subst].
    destruct Hend as (cfg' & _ & ->). etrans; [exact R6 |].
    by apply emitting_mark_initialized.
  - by apply emitting_after_reads.
  - intros cfg' w0' Hcfg'. rewrite Hcfg in Hcfg'. injection Hcfg' as <- _.
    unfold stages_respect, init_auto_instrumentation. rewrite Hoff.
    split_and!; emitting_tac.
Qed.

Lemma gates_witness_config :
  from_env full_host (build_overrides providers_only_args) (fresh ∅) =
  (Ok (set_field F_enable_system_metrics (PBool false)
         (set_field F_auto_instrument (PBool false)
            (set_field F_service_name (PStr "svc")
               (set_field F_api_key (PStr "k") default_config)))),
   after_reads (fresh ∅)).
Proof. vm_compute. reflexivity. Qed.

Lemma sampler_needs_both_flags_witness :
  ∃ w',
    init full_host providers_only_args (fresh ∅) = (Ok tt, w') ∧
    forallb (not_from Sampler) (new_events (fresh ∅) w') = true.
Proof.
  eexists. split; [vm_compute; reflexivity |].
  apply (sampler_needs_both_flags full_host providers_only_args (fresh ∅) (Ok tt) _ _ _
           ltac:(vm_compute; reflexivity) gates_witness_config eq_refl).
Defined.

Lemma discovery_needs_its_flag_witness :
  ∃ w',
    init full_host providers_only_args (fresh ∅) = (Ok tt, w') ∧
    forallb (not_from Discovery) (new_events (fresh ∅) w') = true.
Proof.
  eexists. split; [vm_compute; reflexivity |].
  apply (discovery_needs_its_flag full_host providers_only_args (fresh ∅) (Ok tt) _ _ _
           ltac:(vm_compute; reflexivity) gates_witness_config eq_refl).
Defined.

(** ** The exit hook *)

(** X7.  [atexit.register(shutdown)] is called once by an [init] that completes
    an initialization, and not at all by an [init] that raises or that
    finds the SDK initialized. *)
Theorem exit_hook_once_per_initialization X a w r w' :
  init X a w = (r, w') →
  count_events is_atexit_registration (new_events w w') =
  match r with
  | Ok _ => if _initialized (globals w) then 0%nat else 1%nat
  | Raise _ => 0%nat
  end.
Proof.
  intros Hinit.
  destruct (_initialized (globals w)) eqn:Hflag.
  { rewrite init_when_initialized in Hinit by done. injection Hinit as <- <-.
    by rewrite new_events_refl. }
  set (P := λ ev, negb (is_atexit_registration ev)).
  eapply (init_stagewise (emitting P)) in Hinit as (w6 & R6 & Hend); [| done | |].
  - destruct r as [[]|e].
    + destruct Hend as (cfg & _ & ->). destruct R6 as (_ & evs & Hevs & HP).
      erewrite new_events_app;
        [| unfold mark_initialized; simpl; rewrite Hevs, <- app_assoc; reflexivity].
      rewrite count_events_app, (count_events_none _ _ HP). reflexivity.
    + subst w6. apply emitting_new_events in R6. by apply count_events_none.
  - by apply emitting_after_reads.
  - intros cfg w0 _. unfold stages_respect. split_and!; emitting_tac.
Qed.

Lemma exit_hook_once_per_initialization_witness :
  count_events is_atexit_registration
    (new_events (fresh ∅) (init failing_metric_exporter minimal_args (fresh ∅)).2)
  = 0%nat ∧
  count_events is_atexit_registration
    (new_events (fresh ∅) (init bare_host minimal_args (fresh ∅)).2) = 1%nat.
Proof.
  split.
  - apply (exit_hook_once_per_initialization failing_metric_exporter minimal_args
             (fresh ∅) (Raise (mkExn ValueError "invalid endpoint"))).
    vm_compute. reflexivity.
  - apply (exit_hook_once_per_initialization bare_host minimal_args (fresh ∅) (Ok tt)).
    vm_compute. reflexivity.
Defined.

(** * Keyword options the configuration does not know *)

Lemma setattr_loop_ignores_unknown X overrides cfg w :
  for_each (setattr_if_hasattr X) cfg overrides w =
  for_each (setattr_if_hasattr X) cfg (List.filter (hasattr_cfg X) overrides) w.
Proof.
  revert cfg. induction overrides as [|[key value] ov IH]; intros cfg; [done |].
  cbn [List.filter for_each]. unfold hasattr_cfg at 1. cbn [fst snd].
  destruct (field_of_name key) as [f|] eqn:Hf.
  - rewrite bool_decide_eq_true_2 by eauto. cbn [orb for_each].
    rewrite !bind_unfold. unfold setattr_if_hasattr at 1 3. rewrite Hf. apply IH.
  - rewrite bool_decide_eq_false_2 by (by intros [? [=]]). cbn [orb].
    destruct (String.eqb key "from_env") eqn:Hm.
    + cbn [orb for_each]. rewrite !bind_unfold. unfold setattr_if_hasattr at 1 3.
      rewrite Hf, Hm. apply IH.
    + cbn [orb]. destruct (ext_inherited_attr X key value) as [out|] eqn:Hi.
      * rewrite bool_decide_eq_true_2 by eauto. cbn [for_each].
        rewrite !bind_unfold. unfold setattr_if_hasattr at 1 3.
        rewrite Hf, Hm, Hi. destruct out; [done | apply IH].
      * rewrite bool_decide_eq_false_2 by (by intros [? [=]]).
        rewrite bind_unfold. unfold setattr_if_hasattr at 1.
        rewrite Hf, Hm, Hi. apply IH.
Qed.

Lemma filter_dict_set (p : string * PyVal → bool) key value (d : Dict) :
  (∀ v, p (key, v) = true) →
  List.filter p (dict_set key value d) = dict_set key value (List.filter p d).
Proof.
  intros Hkey. induction d as [|[k v] d IH]; simpl.
  - by rewrite Hkey.
  - destruct (String.eqb_spec k key) as [-> | Hne]; simpl.
    + rewrite !Hkey. simpl. by rewrite String.eqb_refl.
    + destruct (p (k, v)); simpl; [| exact IH].
      destruct (String.eqb_spec k key); [done |]. by rewrite IH.
Qed.

Lemma filter_filter_comm {A : Type} (p q : A → bool) (l : list A) :
  List.filter p (List.filter q l) = List.filter q (List.filter p l).
Proof.
  induction l as [|x l IH]; simpl; [done |].
  destruct (p x) eqn:Hp, (q x) eqn:Hq; simpl; rewrite ?Hp, ?Hq, IH; done.
Qed.

Lemma build_overrides_without_unknown X a :
  build_overrides (without_unknown_options X a) =
  List.filter (hasattr_cfg X) (build_overrides a).
Proof.
  unfold build_overrides, without_unknown_options. simpl.
  destruct (truthy (arg_api_key a)), (truthy (arg_service_name a)),
    (truthy (arg_endpoint a));
    rewrite ?filter_dict_set by done; by rewrite filter_filter_comm.
Qed.


(** * An SDK variable that is set and empty *)

(** X2.  [os.getenv] returns the value of a variable that is set, empty or
    not.  With [OPTIC_API_KEY] set to the empty string and no [api_key]
    argument, the resolved credential is empty whatever [OTEL_API_KEY]
    holds, and [init] raises before it constructs anything. *)
Theorem empty_sdk_key_shadows_fallback X a w cfg w0 :
  _initialized (globals w) = false →
  kwargs_wf (arg_kwargs a) →
  truthy (arg_api_key a) = false →
  environ w !! "OPTIC_API_KEY" = Some "" →
  from_env X (build_overrides a) w = (Ok cfg, w0) →
  api_key cfg = PStr "" ∧
  init X a w = (Raise api_key_required, after_reads w).
Proof.
  intros Hflag Hwf Hkey Henv Hcfg.
  assert (api_key cfg = PStr "") as Hempty.
  { change (get_field F_api_key cfg = PStr "").
    rewrite (from_env_fields _ _ _ _ _ F_api_key
               (build_overrides_NoDup _ (proj1 Hwf)) Hcfg).
    rewrite build_overrides_get by done. simpl. rewrite Hkey.
    unfold env_or_default. simpl. by rewrite Henv. }
  split; [done |].
  pose proof (from_env_world _ _ _ _ _ Hcfg) as ->.
  rewrite init_when_uninitialized by done. rewrite bind_unfold, Hcfg.
  by rewrite Hempty.
Qed.

Lemma empty_sdk_key_shadows_fallback_witness :
  environ (fresh shadowed_environ) !! "OTEL_API_KEY" = Some "generic-key" ∧
  init bare_host no_key_args (fresh shadowed_environ)
  = (Raise api_key_required, after_reads (fresh shadowed_environ)).
Proof.
  split; [reflexivity |].
  refine (proj2 (empty_sdk_key_shadows_fallback bare_host no_key_args
                   (fresh shadowed_environ)
                   (set_field F_service_name (PStr "svc") default_config)
                   (after_reads (fresh shadowed_environ)) _ _ _ _ _)).
  - reflexivity.
  - compute_done.
  - reflexivity.
  - reflexivity.
  - vm_compute. reflexivity.
Defined.

(** * A log level that is no string *)

(** X3.  [init] calls [cfg.log_level.upper()] when logs are enabled, so it can
    only succeed with logs enabled when the resolved [log_level] is a
    string: a number such as [logging.DEBUG] makes it raise. *)
Theorem log_level_must_be_a_string X a w w' cfg w0 :
  _initialized (globals w) = false →
  init X a w = (Ok tt, w') →
  from_env X (build_overrides a) w = (Ok cfg, w0) →
  enabled Logs cfg = true →
  ∃ level, log_level cfg = PStr level.
Proof.
  intros Hflag Hinit Hcfg Hlogs.
  apply init_ok_summary in Hinit as (cfg' & Hcfg' & _ & _ & Hhandler); [| done].
  rewrite Hcfg in Hcfg'. injection Hcfg' as <- _.
  destruct (Hhandler Hlogs) as (_ & level & _ & ? & _). eauto.
Qed.

Lemma log_level_must_be_a_string_witness :
  ∃ level,
    log_level (set_field F_log_level (PStr "verbose")
                 (set_field F_service_name (PStr "svc")
                    (set_field F_api_key (PStr "k") default_config)))
    = PStr level.
Proof.
  refine (log_level_must_be_a_string bare_host verbose_args (fresh ∅)
            (init bare_host verbose_args (fresh ∅)).2 _
            (after_reads (fresh ∅)) _ _ _ _).
  - reflexivity.
  - vm_compute. reflexivity.
  - vm_compute. reflexivity.
  - reflexivity.
Defined.

(** With [log_level=10] the logger provider is built and stored, then
    [init] raises [AttributeError] and the flag stays false. *)
Example numeric_log_level_scenario :
  (init bare_host numeric_level_args (fresh ∅)).1
  = Raise (mkExn AttributeError "'int' object has no attribute 'upper'") ∧
  globals (init bare_host numeric_level_args (fresh ∅)).2
  = {| _initialized := false; _tracer_provider := Some 10%nat;
       _meter_provider := Some 16%nat; _logger_provider := Some 19%nat |}.
Proof. split; vm_compute; reflexivity. Qed.


(** * A provider that outlives its signal *)

Lemma handle_is_owned s h g : handle_of s g = Some h → (s, h) ∈ owned g.
Proof.
  intros H. unfold owned. simpl.
  destruct g as [flag tp mp lp]; simpl in *.
  destruct s, tp, mp, lp; simpl in *; try discriminate; injection H as ->;
    repeat constructor.
Qed.

(** X8.  [shutdown] keeps the provider handles, and [init] stores a handle only
    for a signal it sets up.  So when the SDK is initialized again with a
    signal switched off, the provider built for that signal the first time
    is still owned, and the next [shutdown] flushes it once more. *)
Theorem stale_provider_is_flushed_again X a w w1 w2 cfg w0 s h :
  _initialized (globals w) = false →
  handle_of s (globals w) = Some h →
  from_env X (build_overrides a) w = (Ok cfg, w0) →
  enabled s cfg = false →
  init X a w = (Ok tt, w1) →
  shutdown X w1 = (Ok tt, w2) →
  handle_of s (globals w1) = Some h ∧
  ECall (provider_shutdown s h) Returned ∈ new_events w1 w2.
Proof.
  intros Hflag Hh Hcfg Hoff Hinit Hdown.
  pose proof (init_ok_initialized _ _ _ _ Hinit) as Hflag1.
  apply init_ok_summary in Hinit as (cfg' & Hcfg' & _ & Hhandles & _); [| done].
  rewrite Hcfg in Hcfg'. injection Hcfg' as <- _.
  specialize (Hhandles s). rewrite Hoff, Hh in Hhandles.
  split; [done |].
  apply shutdown_when_initialized in Hdown as (_ & _ & Hevents & _); [| done].
  rewrite (new_events_app _ _ _ Hevents).
  apply (list_elem_of_fmap_2 (shutdown_event Returned) _ (s, h)).
  by apply handle_is_owned.
Qed.

Lemma stale_provider_is_flushed_again_witness :
  let w := ((init bare_host minimal_args;; shutdown bare_host) (fresh ∅)).2 in
  ∃ w1 w2,
    init bare_host no_traces_args w = (Ok tt, w1) ∧
    shutdown bare_host w1 = (Ok tt, w2) ∧
    ECall (provider_shutdown Traces 10) Returned ∈ events w ∧
    ECall (provider_shutdown Traces 10) Returned ∈ new_events w1 w2.
Proof.
  intros w. eexists _, _.
  split; [vm_compute; reflexivity |]. split; [vm_compute; reflexivity |].
  split; [vm_compute; by repeat constructor |].
  refine (proj2 (stale_provider_is_flushed_again bare_host no_traces_args w _ _
                   (set_field F_enable_traces (PBool false)
                      (set_field F_service_name (PStr "svc")
                         (set_field F_api_key (PStr "k") default_config)))
                   (after_reads w) Traces 10%nat _ _ _ _ _ _));
    vm_compute; reflexivity.
Defined.

(** * Each part keeps to itself *)

(** X9.  Discovery only probes and applies adapters, the sampler only talks to
    [psutil] and the meter, [shutdown] only flushes providers, and
    configuration resolution only reads the environment; discovery, the
    sampler and its callbacks leave the module globals as they are. *)
Theorem parts_keep_to_themselves X excluded_urls interval cb overrides w :
  (∀ r w', auto_instrument X excluded_urls w = (r, w') →
           forallb (is_from Discovery) (new_events w w') = true ∧
           globals w' = globals w) ∧
  (∀ r w', start_system_metrics X interval w = (r, w') →
           forallb (is_from Sampler) (new_events w w') = true ∧
           globals w' = globals w) ∧
  (∀ r w', run_callback X cb w = (r, w') →
           forallb (is_from Sampler) (new_events w w') = true ∧
           globals w' = globals w) ∧
  (∀ r w', shutdown X w = (r, w') →
           forallb (is_from Teardown) (new_events w w') = true) ∧
  (∀ r w', from_env X overrides w = (r, w') →
           forallb (is_from Configuration) (new_events w w') = true ∧
           globals w' = globals w).
Proof.
  split_and!; intros r w' H.
  - split.
    + apply emitting_new_events.
      revert H. generalize w r w'. change (respects (emitting (is_from Discovery))
        (auto_instrument X excluded_urls)). emitting_tac.
    + by apply auto_instrument_only_events in H as (_ & ? & _).
  - split.
    + apply emitting_new_events.
      revert H. generalize w r w'. change (respects (emitting (is_from Sampler))
        (start_system_metrics X interval)). emitting_tac.
    + by apply start_system_metrics_only_events in H as (_ & ? & _).
  - split.
    + apply emitting_new_events.
      revert H. generalize w r w'. change (respects (emitting (is_from Sampler))
        (run_callback X cb)). destruct cb; emitting_tac.
    + by apply run_callback_only_events in H as (_ & ? & _).
  - apply emitting_new_events.
    revert H. generalize w r w'. change (respects (emitting (is_from Teardown))
      (shutdown X)). emitting_tac.
  - apply from_env_world in H as ->. split; [| done].
    apply emitting_new_events. by apply emitting_after_reads.
Qed.

(** * The pipeline of an enabled signal *)

Ltac pipeline_done :=
  simpl; rewrite <- ?app_assoc, ?length_app; simpl;
  rewrite ?Nat.add_succ_r, ?Nat.add_0_r; try reflexivity.

Lemma init_traces_pipeline X cfg resource w w' :
  init_traces X cfg resource (auth_headers cfg) w = (Ok tt, w') →
  enabled Traces cfg = true →
  events w' = events w ++ pipeline X Traces cfg resource (length (events w)) ∧
  handle_of Traces (globals w') = Some (provider_position Traces (length (events w))).
Proof.
  unfold init_traces. simpl. intros H Hon. rewrite Hon in H.
  run_block H. split; pipeline_done.
Qed.

Lemma init_metrics_pipeline X cfg resource w w' :
  init_metrics X cfg resource (auth_headers cfg) w = (Ok tt, w') →
  enabled Metrics cfg = true →
  events w' = events w ++ pipeline X Metrics cfg resource (length (events w)) ∧
  handle_of Metrics (globals w') = Some (provider_position Metrics (length (events w))).
Proof.
  unfold init_metrics. simpl. intros H Hon. rewrite Hon in H.
  run_block H. split; pipeline_done.
Qed.

Lemma init_logs_pipeline X cfg resource w w' :
  init_logs X cfg resource (auth_headers cfg) w = (Ok tt, w') →
  enabled Logs cfg = true →
  events w' = events w ++ pipeline X Logs cfg resource (length (events w)) ∧
  handle_of Logs (globals w') = Some (provider_position Logs (length (events w))).
Proof.
  unfold init_logs. simpl. intros H Hon. rewrite Hon in H.
  destruct (log_level cfg) eqn:Hlevel; run_block H. split; pipeline_done.
Qed.

(** X10.  For every signal the resolved configuration enables, a successful
    [init] builds the whole pipeline in one piece: an exporter bound to
    [<endpoint>/otlp/v1/<signal>] with the bearer header, wrapped and
    attached to a provider built on the one resource descriptor of the
    call, and registered.  The handle the module keeps for the signal is
    that provider. *)
Theorem enabled_signal_gets_its_pipeline X a w w' cfg w0 s :
  _initialized (globals w) = false →
  init X a w = (Ok tt, w') →
  from_env X (build_overrides a) w = (Ok cfg, w0) →
  enabled s cfg = true →
  ∃ resource before after,
    events w' = before ++ pipeline X s cfg resource (length before) ++ after ∧
    events w `prefix_of` before ∧
    before !! resource = Some (ECall (Resource_create (resource_attributes cfg)) Returned) ∧
    (length (events w) ≤ resource)%nat ∧
    handle_of s (globals w') = Some (provider_position s (length before)).
Proof.
  intros Hflag Hinit Hcfg Hon.
  apply init_ok_inv in Hinit
    as (cfg' & resource & w1 & w2 & w3 & w4 & w5 & w6 & Hcfg' & _ & _ & Hres & Ht & Hm
        & Hl & Hs & Hd & ->); [| done].
  rewrite Hcfg in Hcfg'. injection Hcfg' as <- _.
  assert (events w1 = events w ++ from_env_reads
                      ++ [ECall (Resource_create (resource_attributes cfg)) Returned] ∧
          resource = length (events w ++ from_env_reads)) as [E1 Hresource].
  { unfold call in Hres. destruct (ext_raise X _ _); [discriminate |].
    injection Hres as <- <-. simpl. by rewrite <- app_assoc. }
  assert (events w1 !! resource =
          Some (ECall (Resource_create (resource_attributes cfg)) Returned)) as L1.
  { rewrite E1, Hresource, app_assoc. apply list_lookup_middle. reflexivity. }
  assert (length (events w) ≤ resource)%nat as Hle.
  { rewrite Hresource, length_app. lia. }
  assert (events w `prefix_of` events w1) as P1 by (rewrite E1; by eexists).
  pose proof (init_traces_keeps_handles _ _ _ _ _ _ _ Ht) as (_ & P2 & _).
  pose proof (init_metrics_keeps_handles _ _ _ _ _ _ _ Hm) as (_ & P3 & _).
  pose proof (init_logs_keeps_handles _ _ _ _ _ _ _ Hl) as (_ & P4 & _).
  pose proof (init_system_metrics_only_events _ _ _ _ _ Hs) as (_ & G5 & P5).
  pose proof (init_auto_instrumentation_only_events _ _ _ _ _ Hd) as (_ & G6 & P6).
  pose proof (init_traces_ok _ _ _ _ _ _ Ht) as (Tm & Tl & _).
  pose proof (init_metrics_ok _ _ _ _ _ _ Hm) as (Mt & Ml & _).
  pose proof (init_logs_ok _ _ _ _ _ _ Hl) as (Lt & Lm & _).
  assert (∀ s', handle_of s' (globals (mark_initialized cfg w6)) = handle_of s' (globals w4))
    as Hend by (intros []; simpl; by rewrite G6, G5).
  assert (∃ k, events (mark_initialized cfg w6) = events w4 ++ k) as [k4 E4].
  { destruct P5 as [k5 E5], P6 as [k6 E6]. simpl. rewrite E6, E5.
    eexists. by rewrite <- !app_assoc. }
  destruct s.
  - apply init_traces_pipeline in Ht as [Ep Hh]; [| done].
    destruct P3 as [k3 E3], P4 as [k4' E4'].
    exists resource, (events w1), (k3 ++ k4' ++ k4). split_and!; try done.
    + rewrite E4, E4', E3, Ep. by rewrite <- !app_assoc.
    + by rewrite Hend, Lt, Mt.
  - apply init_metrics_pipeline in Hm as [Ep Hh]; [| done].
    destruct P4 as [k4' E4'].
    exists resource, (events w2), (k4' ++ k4). split_and!; try done.
    + rewrite E4, E4', Ep. by rewrite <- !app_assoc.
    + by etrans.
    + by eapply prefix_lookup_Some.
    + by rewrite Hend, Lm.
  - apply init_logs_pipeline in Hl as [Ep Hh]; [| done].
    exists resource, (events w3), k4. split_and!; try done.
    + rewrite E4, Ep. by rewrite <- !app_assoc.
    + etrans; [exact P1 |]. etrans; [exact P2 | exact P3].
    + eapply prefix_lookup_Some; [| exact P3]. by eapply prefix_lookup_Some.
    + by rewrite Hend.
Qed.

Lemma enabled_signal_gets_its_pipeline_witness :
  let cfg := set_field F_environment (PStr "staging")
               (set_field F_endpoint (PStr "http://sdk")
                  (set_field F_service_name (PStr "svc")
                     (set_field F_api_key (PStr "k") default_config))) in
  let w' := (init bare_host minimal_args (fresh sample_environ)).2 in
  exporter_of Metrics cfg
  = OTLPMetricExporter [FVal (PStr "http://sdk"); FLit "/otlp/v1/metrics"]
      [("Authorization", [FLit "Bearer "; FVal (PStr "k")])] ∧
  ∃ resource before after,
    events w' = before ++ pipeline bare_host Metrics cfg resource (length before) ++ after ∧
    handle_of Metrics (globals w') = Some (provider_position Metrics (length before)).
Proof.
  intros cfg w'. split; [reflexivity |].
  destruct (enabled_signal_gets_its_pipeline bare_host minimal_args (fresh sample_environ)
              w' cfg (after_reads (fresh sample_environ)) Metrics)
    as (resource & before & after & Hevents & _ & _ & _ & Hhandle).
  - reflexivity.
  - vm_compute. reflexivity.
  - vm_compute. reflexivity.
  - reflexivity.
  - exists resource, before, after. split; [exact Hevents | exact Hhandle].
Defined.

(** * What discovery reports *)

(** One pass of the loop body either leaves the list as it is, or
    appends the library after exactly one [instrument] call that
    returned. *)
Lemma instrument_entry_outcome X excluded instrumented lib path w r w' :
  instrument_entry X excluded instrumented (lib, path) w = (r, w') →
  ∃ evs, events w' = events w ++ evs ∧
    match r with
    | Ok instrumented' =>
        (instrumented' = instrumented ∧ count_events is_applied evs = 0%nat) ∨
        (instrumented' = instrumented ++ [lib] ∧ count_events is_applied evs = 1%nat)
    | Raise _ => count_events is_applied evs = 0%nat
    end.
Proof.
  unfold_entry. destruct (rsplit1 ":" path) as [[module_path class_name]|]; simpl;
    repeat case_head;
    intros [= <- <-]; simpl; rewrite <- ?app_assoc;
    (eexists; split; [reflexivity |]); simpl; auto.
Qed.

Lemma discovery_loop_outcome X excluded table :
  ∀ instrumented w instrumented' w',
  for_each (instrument_entry X excluded) instrumented table w = (Ok instrumented', w') →
  ∃ added evs,
    instrumented' = instrumented ++ added ∧
    added `sublist_of` table.*1 ∧
    events w' = events w ++ evs ∧
    count_events is_applied evs = length added.
Proof.
  induction table as [|[lib path] table IH]; intros instrumented w instrumented' w'.
  - intros [= <- <-]. exists [], []. by rewrite !app_nil_r.
  - cbn [for_each]. intros H.
    apply bind_ok_inv in H as (instrumented1 & w1 & Hentry & Hloop).
    apply instrument_entry_outcome in Hentry as (evs1 & E1 & Hcase).
    apply IH in Hloop as (added & evs & -> & Hsub & E & Hcount).
    destruct Hcase as [[-> C1] | [-> C1]].
    + exists added, (evs1 ++ evs). split_and!; [done | | |].
      * by apply sublist_cons.
      * by rewrite E, E1, app_assoc.
      * by rewrite count_events_app, C1, Hcount.
    + exists (lib :: added), (evs1 ++ evs). split_and!.
      * by rewrite <- app_assoc.
      * by apply sublist_skip.
      * by rewrite E, E1, app_assoc.
      * by rewrite count_events_app, C1, Hcount.
Qed.

Lemma discovery_loop_logs_no_summary X excluded table instrumented :
  respects (emitting (λ ev, negb (is_summary ev)))
    (for_each (instrument_entry X excluded) instrumented table).
Proof. emitting_tac. Qed.

(** X11.  When [auto_instrument] returns, the libraries it counts as
    instrumented are entries of the table, in table order, one for each
    [instrument] call that returned.  It logs its summary line, naming
    exactly these libraries, as the last thing it does, and logs none when
    there is none. *)
Theorem summary_lists_applied_adapters X excluded_urls w w' :
  auto_instrument X excluded_urls w = (Ok tt, w') →
  ∃ instrumented,
    instrumented `sublist_of` INSTRUMENTORS.*1 ∧
    count_events is_applied (new_events w w') = length instrumented ∧
    match instrumented with
    | [] => count_events is_summary (new_events w w') = 0%nat
    | _ => count_events is_summary (new_events w w') = 1%nat ∧
           last (new_events w w') = Some (auto_instrumented_message instrumented)
    end.
Proof.
  unfold auto_instrument, auto_instrument_over. intros H.
  apply bind_ok_inv in H as (instrumented & w1 & Hloop & Hlog).
  pose proof (discovery_loop_logs_no_summary _ _ _ _ _ _ _ Hloop)
    as (_ & evs' & E' & Hquiet).
  apply discovery_loop_outcome in Hloop as (added & evs & -> & Hsub & E & Hcount).
  assert (evs' = evs) as -> by (rewrite E in E'; by apply app_inv_head in E').
  apply count_events_none in Hquiet.
  exists added. split; [done |]. simpl in Hlog.
  destruct added as [|lib added].
  - injection Hlog as <-. rewrite (new_events_app _ _ _ E). by split.
  - injection Hlog as <-.
    erewrite new_events_app; [| simpl; rewrite E, <- app_assoc; reflexivity].
    rewrite !count_events_app, Hcount, Hquiet. split_and!.
    + unfold count_events. simpl. lia.
    + reflexivity.
    + by rewrite last_snoc.
Qed.

Lemma summary_lists_applied_adapters_witness :
  let w' := (auto_instrument failing_adapter_host (PList [PStr "/health"]) (fresh ∅)).2 in
  last (new_events (fresh ∅) w') = Some (auto_instrumented_message ["requests"]) ∧
  ∃ instrumented,
    instrumented `sublist_of` INSTRUMENTORS.*1 ∧
    count_events is_applied (new_events (fresh ∅) w') = length instrumented ∧
    match instrumented with
    | [] => count_events is_summary (new_events (fresh ∅) w') = 0%nat
    | _ => count_events is_summary (new_events (fresh ∅) w') = 1%nat ∧
           last (new_events (fresh ∅) w') = Some (auto_instrumented_message instrumented)
    end.
Proof.
  intros w'. split; [vm_compute; reflexivity |].
  apply (summary_lists_applied_adapters failing_adapter_host (PList [PStr "/health"])
           (fresh ∅) w').
  vm_compute. reflexivity.
Defined.

(** ** Adapters that are already applied, patterns that cannot be joined *)

Lemma skipping_entry_makes_no_call X excluded instrumented lib path :
  (∀ tr h, ext_bool X tr (is_instrumented_by_opentelemetry h) = true) →
  respects (emitting (λ ev, negb (is_instrument_call ev)))
    (instrument_entry X excluded instrumented (lib, path)).
Proof.
  intros Hdone w r w'. unfold_entry.
  destruct (rsplit1 ":" path) as [[module_path class_name]|]; simpl;
    repeat (rewrite ?Hdone; case_head);
    intros [= <- <-]; (split; [reflexivity |]); simpl; rewrite <- ?app_assoc;
    (eexists; split; [reflexivity |]); reflexivity.
Qed.

(** X12.  An adapter that reports itself as instrumented already is never
    applied again: when every adapter does, discovery calls no
    [instrument] at all, however it ends. *)
Theorem applied_adapters_are_skipped X excluded_urls w r w' :
  (∀ tr h, ext_bool X tr (is_instrumented_by_opentelemetry h) = true) →
  auto_instrument X excluded_urls w = (r, w') →
  count_events is_instrument_call (new_events w w') = 0%nat.
Proof.
  intros Hdone Hrun. apply count_events_none, emitting_new_events.
  revert Hrun. generalize w r w'.
  change (respects (emitting (λ ev, negb (is_instrument_call ev)))
            (auto_instrument X excluded_urls)).
  unfold auto_instrument, auto_instrument_over.
  apply respects_bind; [exact _ | |].
  - apply respects_for_each; [exact _ |]. intros acc [lib path].
    by apply skipping_entry_makes_no_call.
  - intros [|lib instrumented]; emitting_tac.
Qed.

Lemma applied_adapters_are_skipped_witness :
  count_events is_instrument_call
    (new_events (fresh ∅) (auto_instrument instrumented_host (PList []) (fresh ∅)).2)
  = 0%nat ∧
  count_events (is_from Discovery)
    (new_events (fresh ∅) (auto_instrument instrumented_host (PList []) (fresh ∅)).2)
  = 65%nat.
Proof.
  split; [| vm_compute; reflexivity].
  apply (applied_adapters_are_skipped instrumented_host (PList []) (fresh ∅)
           (auto_instrument instrumented_host (PList []) (fresh ∅)).1).
  - reflexivity.
  - vm_compute. reflexivity.
Defined.

Lemma unjoinable_entry_makes_no_call X excluded e instrumented lib path :
  truthy excluded = true →
  str_join "," excluded = Raise e →
  (∀ tr h, ext_bool X tr (hasattr_ h "instrument") = true) →
  respects (emitting (λ ev, negb (is_instrument_call ev)))
    (instrument_entry X excluded instrumented (lib, path)).
Proof.
  intros Htruthy Hjoin Hhas w r w'. unfold_entry. rewrite Htruthy, Hjoin.
  destruct (rsplit1 ":" path) as [[module_path class_name]|]; simpl;
    repeat (rewrite ?Hhas; case_head);
    intros [= <- <-]; (split; [reflexivity |]); simpl; rewrite <- ?app_assoc;
    (eexists; split; [reflexivity |]); reflexivity.
Qed.

(** X13.  The excluded URL patterns are joined with commas before an adapter is
    applied.  When they cannot be joined (a list with an item that is no
    string, or a truthy value that is no sequence), the [TypeError] of the
    join is raised inside the [try], before [instrument] is called: no
    adapter that has an [instrument] method is ever applied. *)
Theorem unjoinable_patterns_block_adapters X excluded_urls e w r w' :
  truthy excluded_urls = true →
  str_join "," excluded_urls = Raise e →
  (∀ tr h, ext_bool X tr (hasattr_ h "instrument") = true) →
  auto_instrument X excluded_urls w = (r, w') →
  count_events is_instrument_call (new_events w w') = 0%nat.
Proof.
  intros Htruthy Hjoin Hhas Hrun. apply count_events_none, emitting_new_events.
  revert Hrun. generalize w r w'.
  change (respects (emitting (λ ev, negb (is_instrument_call ev)))
            (auto_instrument X excluded_urls)).
  unfold auto_instrument, auto_instrument_over, py_or. rewrite Htruthy.
  apply respects_bind; [exact _ | |].
  - apply respects_for_each; [exact _ |]. intros acc [lib path].
    by eapply unjoinable_entry_makes_no_call.
  - intros [|lib instrumented]; emitting_tac.
Qed.

Lemma unjoinable_patterns_block_adapters_witness :
  str_join "," unjoinable_patterns
  = Raise (mkExn TypeError "sequence item 1: expected str instance, int found") ∧
  count_events is_instrument_call
    (new_events (fresh ∅) (auto_instrument full_host unjoinable_patterns (fresh ∅)).2)
  = 0%nat ∧
  (auto_instrument full_host unjoinable_patterns (fresh ∅)).1 = Ok tt.
Proof.
  split; [reflexivity |]. split; [| vm_compute; reflexivity].
  apply (unjoinable_patterns_block_adapters full_host unjoinable_patterns
           (mkExn TypeError "sequence item 1: expected str instance, int found")
           (fresh ∅) (auto_instrument full_host unjoinable_patterns (fresh ∅)).1).
  - reflexivity.
  - reflexivity.
  - reflexivity.
  - vm_compute. reflexivity.
Defined.

(** * Starting the sampler *)

(** X14.  When [start_system_metrics] returns, either [psutil] was missing and
    it only logged that at debug level, creating no gauge; or it asked
    for the meter and created each of the three gauges twice, the second
    time with its callback, then logged that collection started. *)
Theorem sampler_start_outcomes X interval w w' :
  start_system_metrics X interval w = (Ok tt, w') →
  (∃ e, isinstance e ImportError = true ∧
        new_events w w' =
        [ECall import_psutil (Raised e);
         ELog system_metrics_logger logging_DEBUG
           [FLit "psutil not installed, system metrics disabled"]]) ∨
  (∃ meter,
     new_events w w' =
     [ECall import_psutil Returned;
      ECall (import_from "opentelemetry" "metrics") Returned;
      ECall (get_meter "observex.system" "0.1.0") Returned]
     ++ gauge_registrations meter
     ++ [ELog system_metrics_logger logging_INFO
           [FLit "System metrics collection started"]]).
Proof.
  unfold start_system_metrics, try_except, mbind, M_bind, call, log, emit, mret,
    M_ret, record_event. simpl.
  repeat case_head; intros [= <-];
    (erewrite new_events_app; [| simpl; rewrite <- ?app_assoc; reflexivity]);
    eauto.
Qed.

Lemma sampler_start_outcomes_witness :
  let w' := (start_system_metrics full_host (PFloat (15 # 1)) (fresh ∅)).2 in
  count_events is_gauge_creation (new_events (fresh ∅) w') = 6%nat ∧
  ((∃ e, isinstance e ImportError = true ∧
         new_events (fresh ∅) w' =
         [ECall import_psutil (Raised e);
          ELog system_metrics_logger logging_DEBUG
            [FLit "psutil not installed, system metrics disabled"]]) ∨
   (∃ meter,
      new_events (fresh ∅) w' =
      [ECall import_psutil Returned;
       ECall (import_from "opentelemetry" "metrics") Returned;
       ECall (get_meter "observex.system" "0.1.0") Returned]
      ++ gauge_registrations meter
      ++ [ELog system_metrics_logger logging_INFO
            [FLit "System metrics collection started"]])).
Proof.
  intros w'. split; [vm_compute; reflexivity |].
  apply (sampler_start_outcomes full_host (PFloat (15 # 1)) (fresh ∅) w').
  vm_compute. reflexivity.
Defined.
